(** * Nagrik-Rakshak complaint triage worker ([ai.py])

    A shallow embedding of the classification and change-reaction engine
    of [ai.py]: the text normaliser [clean], the keyword tables and the
    scoring functions, the deadline and overdue policies, and the
    Firestore listener [on_snapshot].

    Conventions of the embedding.
    - A Python [str] is a [string]; its characters are the code points
      below 256, on which [str.lower()] acts character by character.
    - A naive [datetime] is a count of microseconds on the wall-clock
      time line; an aware one carries its UTC offset next to it.
    - Python exceptions are values of [exn]; a computation that may raise
      returns an [outcome].
    - The listener runs in a state monad over [world]: the number of
      clock readings taken so far, the updates issued to the record
      store and the lines printed. *)

From Stdlib Require Import ZArith NArith Ascii String Bool Lia.
From stdpp Require Import base option list strings gmap.

Set Warnings "-register-all".

(** ** Exceptions *)

Inductive exn : Type :=
  | AttributeError
  | TypeError
  | ValueError
  | KeyError.

Inductive outcome (A : Type) : Type :=
  | Returned (a : A)
  | Raised (e : exn).
Arguments Returned {A} a.
Arguments Raised {A} e.

#[global] Instance outcome_ret : MRet outcome := λ A a, Returned a.
#[global] Instance outcome_bind : MBind outcome := λ A B k m,
  match m with
  | Returned a => k a
  | Raised e => Raised e
  end.

(** ** Python [str] *)

Module Str.

Definition ord (c : ascii) : N := N_of_ascii c.
Definition chr (n : N) : ascii := ascii_of_N n.

Definition space : ascii := " "%char.

(** [a-z] *)
Definition is_az (c : ascii) : bool :=
  ((97 <=? ord c) && (ord c <=? 122))%N.

(** Upper-case characters below 256: [A-Z], and U+00C0..U+00DE but the
    multiplication sign U+00D7. Their lower case is 32 further on. *)
Definition is_upper (c : ascii) : bool :=
  (((65 <=? ord c) && (ord c <=? 90))
   || ((192 <=? ord c) && (ord c <=? 222) && negb (ord c =? 215)))%N.

Definition lower_char (c : ascii) : ascii :=
  if is_upper c then chr (ord c + 32) else c.

(** [str.isspace] on one character, which is also what [\s] matches
    in a [str] pattern and what [str.strip()] removes. *)
Definition isspace (c : ascii) : bool :=
  (((9 <=? ord c) && (ord c <=? 13))
   || ((28 <=? ord c) && (ord c <=? 32))
   || (ord c =? 133) || (ord c =? 160))%N.

Fixpoint map (f : ascii → ascii) (s : string) : string :=
  match s with
  | EmptyString => EmptyString
  | String c r => String (f c) (map f r)
  end.

(** [s.lower()] *)
Definition lower (s : string) : string := map lower_char s.

(** [re.sub(r"[^a-z ]", " ", s)] : every character outside the class
    is a match of length one. *)
Definition sub_not_az_space (s : string) : string :=
  map (λ c, if is_az c || Ascii.eqb c space then c else space) s.

(** [re.sub(r"\s+", " ", s)] : every maximal run of white space is one
    match. [in_run] tells that the previous character belonged to the
    run being replaced. *)
Fixpoint sub_space_runs_from (in_run : bool) (s : string) : string :=
  match s with
  | EmptyString => EmptyString
  | String c r =>
      if isspace c
      then if in_run then sub_space_runs_from true r
           else String space (sub_space_runs_from true r)
      else String c (sub_space_runs_from false r)
  end.
Definition sub_space_runs : string → string := sub_space_runs_from false.

Fixpoint lstrip (s : string) : string :=
  match s with
  | EmptyString => EmptyString
  | String c r => if isspace c then lstrip r else s
  end.

Fixpoint rstrip (s : string) : string :=
  match s with
  | EmptyString => EmptyString
  | String c r =>
      match rstrip r with
      | EmptyString => if isspace c then EmptyString else String c EmptyString
      | r' => String c r'
      end
  end.

(** [s.strip()] *)
Definition strip (s : string) : string := lstrip (rstrip s).

(** [k in s] for two strings: [k] occurs in [s] as a substring. *)
Fixpoint contains (s k : string) : bool :=
  String.prefix k s
  || match s with
     | EmptyString => false
     | String _ r => contains r k
     end.

End Str.

(** ** [clean] *)

Definition clean (text : string) : string :=
  let text := Str.lower text in
  let text := Str.sub_not_az_space text in
  let text := Str.strip (Str.sub_space_runs text) in
  text.

(** ** Python [dict] with string keys, in insertion order

    Used for the two keyword tables and for the score tables built from
    them, where the iteration order is observable through [max]. *)

Module odict.

Abbreviation t V := (list (string * V)).

Fixpoint set {V} (d : t V) (k : string) (v : V) : t V :=
  match d with
  | [] => [(k, v)]
  | (k', v') :: r =>
      if String.eqb k' k then (k', v) :: r else (k', v') :: set r k v
  end.

Fixpoint get {V} (d : t V) (k : string) : option V :=
  match d with
  | [] => None
  | (k', v') :: r => if String.eqb k' k then Some v' else get r k
  end.

(** A dict display or comprehension: the items are inserted one by one. *)
Definition of_items {V} (l : list (string * V)) : t V :=
  fold_left (λ d kv, set d kv.1 kv.2) l [].

Definition items {V} (d : t V) : list (string * V) := d.
Definition keys {V} (d : t V) : list string := d.*1.

(** [d[k]] *)
Definition subscript {V} (d : t V) (k : string) : outcome V :=
  match get d k with
  | Some v => Returned v
  | None => Raised KeyError
  end.

End odict.

(** ** Keyword tables *)

Definition KEYWORDS : odict.t (list string) := odict.of_items [
  ("Water", [
      "water"; "supply"; "no water"; "pipeline"; "pipe";
      "tap"; "pressure"; "tank"; "leak"; "leakage";
      "dirty water"; "drinking water"; "water shortage"; "manhole"; "open manhole"
  ]);
  ("Electricity", [
      "electric"; "electricity"; "power"; "current";
      "light"; "lights"; "streetlight";
      "wire"; "spark"; "shock";
      "transformer"; "pole"; "meter";
      "voltage"; "power cut"; "short circuit"
  ]);
  ("Municipality", [
      "garbage"; "waste"; "dump"; "dumping";
      "drain"; "drains"; "sewer"; "sewage";
      "dirty"; "smell"; "mosquito";
      "sanitation"; "toilet"; "dustbin"
  ]);
  ("PWD", [
      "road"; "roads"; "pothole"; "potholes";
      "bridge"; "flyover"; "highway";
      "footpath"; "divider"; "culvert";
      "crack"; "collapse"; "asphalt";
      "construction"; "speed breaker"
  ]);
  ("Police", [
      "theft"; "stolen"; "robbery";
      "fight"; "fighting"; "quarrel";
      "harass"; "harassment"; "eve teasing";
      "crime"; "criminal"; "threat";
      "drunk"; "alcohol"; "drug";
      "noise"; "loud"; "disturbance";
      "security"; "unsafe"
  ]);
  ("Traffic", [
      "traffic"; "signal"; "signals";
      "parking"; "jam"; "congestion";
      "junction"; "crossing";
      "wrong side"; "accident";
      "rash driving"; "speeding";
      "bus stop"; "lane"
  ])
].

Definition PRIORITY_KEYWORDS : odict.t (list string) := odict.of_items [
  ("High", [
      "live wire"; "electric shock"; "fire"; "big jam";
      "collapse"; "fallen"; "burst";
      "open manhole"; "accident"; "danger";
      "emergency"; "attack"; "fight"; "theft"
  ]);
  ("Medium", [
      "not working"; "damaged"; "leak";
      "overflow"; "blocked"; "frequent";
      "low pressure"; "delay"
  ]);
  ("Low", [
      "dirty"; "dust"; "small"; "minor";
      "slow"; "dim"; "maintenance"
  ])
].

(** ** Scoring *)

(** [sum(1 for k in keywords if k in text)] *)
Definition keyword_score (text : string) (keywords : list string) : nat :=
  sum_list ((λ _, 1) <$> List.filter (λ k, Str.contains text k) keywords).

(** [a > b] on the values that [scores.get] returns: an [int], or [None]
    for a key that is not in the dict, which does not compare. *)
Definition score_gt (a b : option nat) : outcome bool :=
  match a, b with
  | Some x, Some y => Returned (y <? x)
  | _, _ => Raised TypeError
  end.

(** [max(iterable, key=key)]: the running maximum is replaced only by a
    strictly greater item, and an empty iterable raises [ValueError]. *)
Fixpoint max_from {A} (key : A → option nat) (best : A) (best_key : option nat)
    (rest : list A) : outcome A :=
  match rest with
  | [] => Returned best
  | x :: r =>
      let kx := key x in
      gt ← score_gt kx best_key;
      if (gt : bool) then max_from key x kx r else max_from key best best_key r
  end.

Definition py_max {A} (iterable : list A) (key : A → option nat) : outcome A :=
  match iterable with
  | [] => Raised ValueError
  | x :: r => max_from key x (key x) r
  end.

(** [{c: keyword_score(text, k) for c, k in table.items()}] *)
Definition score_table (table : odict.t (list string)) (text : string)
    : odict.t nat :=
  odict.of_items ((λ ck, (ck.1, keyword_score text ck.2)) <$> odict.items table).

(** [max(scores, key=scores.get)] *)
Definition best_key (scores : odict.t nat) : outcome string :=
  py_max (odict.keys scores) (odict.get scores).

Definition predict_department (text : string) : outcome (string * nat) :=
  let scores := score_table KEYWORDS text in
  best ← best_key scores;
  s ← odict.subscript scores best;
  mret (best, s * 20).

Definition predict_priority (text : string) : outcome (string * nat) :=
  let scores := score_table PRIORITY_KEYWORDS text in
  best ← best_key scores;
  s ← odict.subscript scores best;
  mret (best, s * 25).

(** ** [datetime] and [timedelta] *)

(** Microseconds, the resolution of both types. *)
Definition timedelta : Type := Z.
Definition timedelta_hours (hours : Z) : timedelta :=
  (hours * 3600 * 1000000)%Z.
Definition timedelta_days (days : Z) : timedelta :=
  (days * 24 * 3600 * 1000000)%Z.

(** [wall] is the reading of the calendar and clock fields; [tzinfo] is
    [None] for a naive value and the UTC offset for an aware one. The
    bounds of the type (years 1 to 9999) are not modelled. *)
Record datetime : Type := mk_datetime {
  wall : Z;
  tzinfo : option Z
}.

Definition naive (t : Z) : datetime := mk_datetime t None.

(** [d + delta] *)
Definition datetime_add (d : datetime) (delta : timedelta) : datetime :=
  mk_datetime (wall d + delta)%Z (tzinfo d).

(** [d.replace(tzinfo=None)]: the fields stay, the zone goes. *)
Definition replace_tzinfo_None (d : datetime) : datetime :=
  mk_datetime (wall d) None.

(** [a > b]: naive values compare by their fields, aware ones by their
    instants, and a naive with an aware value do not compare. *)
Definition datetime_gt (a b : datetime) : outcome bool :=
  match tzinfo a, tzinfo b with
  | None, None => Returned (wall b <? wall a)%Z
  | Some oa, Some ob => Returned (wall b - ob <? wall a - oa)%Z
  | _, _ => Raised TypeError
  end.

(** ** Field values of a document *)

Inductive value : Type :=
  | VNone
  | VBool (b : bool)
  | VInt (n : Z)
  | VStr (s : string)
  | VTime (t : datetime)
  | VList (l : list value)
  | VDict (d : gmap string value).

(** Truth value of an object, as [if x:] and [not x] take it. *)
Definition truthy (v : value) : bool :=
  match v with
  | VNone => false
  | VBool b => b
  | VInt n => negb (n =? 0)%Z
  | VStr s => negb (String.eqb s "")
  | VTime _ => true
  | VList l => negb (length l =? 0)
  | VDict d => negb (size d =? 0)
  end.

(** [v == s] and [v != s] for a string literal [s]. *)
Definition eq_str (v : value) (s : string) : bool :=
  match v with
  | VStr s' => String.eqb s' s
  | _ => false
  end.
Definition ne_str (v : value) (s : string) : bool := negb (eq_str v s).

(** [v.lower()] and the other [str] methods exist on a [str] only. *)
Definition str_method_receiver (v : value) : outcome string :=
  match v with
  | VStr s => Returned s
  | _ => Raised AttributeError
  end.

(** [v.replace(tzinfo=None)]: [str.replace] takes no keyword argument,
    and the other values have no [replace]. *)
Definition value_replace_tzinfo_None (v : value) : outcome datetime :=
  match v with
  | VTime d => Returned (replace_tzinfo_None d)
  | VStr _ => Raised TypeError
  | _ => Raised AttributeError
  end.

(** [v.append(x)] *)
Definition value_append (v : value) (x : value) : outcome value :=
  match v with
  | VList l => Returned (VList (l ++ [x]))
  | _ => Raised AttributeError
  end.

(** [data.get(key)] and [data.get(key, default)] *)
Definition dict_get (data : gmap string value) (key : string) : value :=
  default VNone (data !! key).
Definition dict_get_default (data : gmap string value) (key : string)
    (dflt : value) : value :=
  default dflt (data !! key).

(** ** The record store and its change feed *)

Record DocumentSnapshot : Type := {
  id : string;
  fields : gmap string value
}.
Definition to_dict (doc : DocumentSnapshot) : gmap string value := fields doc.

Inductive ChangeType : Type := ADDED | REMOVED | MODIFIED.

Record DocumentChange : Type := {
  type : ChangeType;
  document : DocumentSnapshot
}.

(** What the two [print] calls of the listener put out. *)
Inductive line : Type :=
  | line_classified (doc_id department priority : string) (deadline : datetime)
  | line_overdue (doc_id : string).

Record world : Type := mk_world {
  ticks : nat;
  updates : list (string * gmap string value);
  printed : list line
}.

(** ** The monad of the listener *)

Definition M (A : Type) : Type := world → outcome A * world.

#[global] Instance M_ret : MRet M := λ A a w, (Returned a, w).
#[global] Instance M_bind : MBind M := λ A B k m w,
  match m w with
  | (Returned a, w') => k a w'
  | (Raised e, w') => (Raised e, w')
  end.

Definition lift {A} (o : outcome A) : M A := λ w, (o, w).

(** [db.collection("complaints").document(doc_id).update(payload)] *)
Definition update (doc_id : string) (payload : gmap string value) : M unit :=
  λ w, (Returned (),
        mk_world (ticks w) (updates w ++ [(doc_id, payload)]) (printed w)).

Definition print (l : line) : M unit :=
  λ w, (Returned (), mk_world (ticks w) (updates w) (printed w ++ [l])).

Fixpoint for_each {A} (body : A → M unit) (items : list A) : M unit :=
  match items with
  | [] => mret ()
  | x :: r => body x ;; for_each body r
  end.

(** ** The listener of [ai.py] *)

Section Listener.

(** [clock k] is what the [k]-th call of [datetime.now()] reads, and
    [isoformat] is [datetime.isoformat]; both belong to the run-time
    system and are left open. *)
Variable clock : nat → Z.
Variable isoformat : datetime → string.

(** [datetime.now()] *)
Definition datetime_now : M datetime :=
  λ w, (Returned (naive (clock (ticks w))),
        mk_world (S (ticks w)) (updates w) (printed w)).

Definition set_deadline (priority : string) : M datetime :=
  now ← datetime_now;
  if String.eqb priority "High" then
    mret (datetime_add now (timedelta_hours 24))
  else if String.eqb priority "Medium" then
    mret (datetime_add now (timedelta_hours 72))
  else
    mret (datetime_add now (timedelta_days 7)).

Definition check_overdue (deadline_timestamp : value) : M bool :=
  if negb (truthy deadline_timestamp) then mret false
  else
    deadline ← lift (value_replace_tzinfo_None deadline_timestamp);
    now ← datetime_now;
    lift (datetime_gt now deadline).

(** The body of the [ADDED] branch. The [continue] of the source ends
    the iteration, which here is to return. *)
Definition on_added (doc : DocumentSnapshot) : M unit :=
  let data := to_dict doc in
  if ne_str (dict_get data "status") "new" then mret ()
  else
    raw ← lift (str_method_receiver
                  (dict_get_default data "description" (VStr "")));
    let text := clean raw in
    '(department, dept_conf) ← lift (predict_department text);
    '(priority, pr_conf) ← lift (predict_priority text);
    deadline ← set_deadline priority;
    let current_actions := dict_get_default data "actions" (VList []) in
    stamp ← datetime_now;
    let classification_action := VDict {[
      "action" := VStr ("AI classified as " +:+ priority
                        +:+ " priority for " +:+ department
                        +:+ " department");
      "timestamp" := VStr (isoformat stamp);
      "by" := VStr "AI System"
    ]} in
    current_actions ← lift (value_append current_actions
                              classification_action);
    last_updated ← datetime_now;
    update (id doc) {[
      "department" := VStr department;
      "departmentConfidence" := VInt (Z.of_nat dept_conf);
      "priority" := VStr priority;
      "priorityConfidence" := VInt (Z.of_nat pr_conf);
      "status" := VStr "classified";
      "deadline" := VTime deadline;
      "actions" := current_actions;
      "lastUpdated" := VTime last_updated
    ]};;
    print (line_classified (id doc) department priority deadline).

(** The body of the [MODIFIED] branch. *)
Definition on_modified (doc : DocumentSnapshot) : M unit :=
  let data := to_dict doc in
  if ne_str (dict_get data "status") "resolved"
     && ne_str (dict_get data "status") "under_action" then
    let deadline := dict_get data "deadline" in
    if truthy deadline then
      deadline_date ← lift (value_replace_tzinfo_None deadline);
      now ← datetime_now;
      late ← lift (datetime_gt now deadline_date);
      if (late : bool) then
        update (id doc) {[ "overdue" := VBool true ]};;
        print (line_overdue (id doc))
      else mret ()
    else mret ()
  else mret ().

(** [on_snapshot(col_snapshot, changes, read_time)]; the first and the
    last argument are not used. *)
Definition on_snapshot (changes : list DocumentChange) : M unit :=
  for_each (λ change,
    match type change with
    | ADDED => on_added (document change)
    | MODIFIED => on_modified (document change)
    | REMOVED => mret ()
    end) changes.

End Listener.

(** ** Notions the statements use *)

(** [k] occurs in [s] as a substring. *)
Definition occurs (k s : string) : Prop :=
  ∃ pre post, s = pre +:+ k +:+ post.

(** Every character of [s] satisfies [P]. *)
Fixpoint all_chars (P : ascii → bool) (s : string) : bool :=
  match s with
  | EmptyString => true
  | String c r => P c && all_chars P r
  end.

(** A character of the class [[a-z ]]. *)
Definition az_or_space (c : ascii) : bool :=
  Str.is_az c || Ascii.eqb c Str.space.

(** [s] does not begin with white space. *)
Definition no_leading_space (s : string) : bool :=
  match s with
  | EmptyString => true
  | String c _ => negb (Str.isspace c)
  end.

(** In [s] a white-space character is followed by a character that is
    not white space: no run of two, none at the end. *)
Fixpoint single_spaced (s : string) : bool :=
  match s with
  | EmptyString => true
  | String c r =>
      (if Str.isspace c
       then negb (String.eqb r "") && no_leading_space r
       else true)
      && single_spaced r
  end.

(** The normal form of a text: lower-case letters in words that one
    space separates. *)
Definition normalized (s : string) : bool :=
  all_chars az_or_space s && no_leading_space s && single_spaced s.

(** The normaliser after the words of the specification: lower case,
    every character outside [[a-z ]] turned into a space, and then the
    words between the white space joined again by single spaces, which
    collapses the runs and trims both ends. *)
Definition normalize_spec (text : string) : string :=
  let lowered := Str.map Str.lower_char text in
  let blanked := Str.map (λ c, if az_or_space c then c else " "%char) lowered in
  String.concat " " (String.words blanked).

(** The classifier of the specification, [classify(text, table)]: the
    body that [predict_department] and [predict_priority] share, with
    the table and the factor of the confidence left open. *)
Definition classify (table : odict.t (list string)) (factor : nat)
    (text : string) : outcome (string * nat) :=
  let scores := score_table table text in
  best ← best_key scores;
  s ← odict.subscript scores best;
  mret (best, s * factor).

(** The updates that running [m] from [w] adds to those already issued. *)
Definition issued (m : M unit) (w : world) : list (string * gmap string value) :=
  drop (length (updates w)) (updates (m w).2).

(** The payload of the classification update. *)
Definition classification_payload (department : string) (dept_conf : nat)
    (priority : string) (pr_conf : nat) (deadline : datetime)
    (actions : list value) (last_updated : datetime) : gmap string value :=
  {[
    "department" := VStr department;
    "departmentConfidence" := VInt (Z.of_nat dept_conf);
    "priority" := VStr priority;
    "priorityConfidence" := VInt (Z.of_nat pr_conf);
    "status" := VStr "classified";
    "deadline" := VTime deadline;
    "actions" := VList actions;
    "lastUpdated" := VTime last_updated
  ]}.

(** The audit-log entry of a classification. *)
Definition classification_entry (isoformat : datetime → string)
    (department priority : string) (stamp : datetime) : value :=
  VDict {[
    "action" := VStr ("AI classified as " +:+ priority
                      +:+ " priority for " +:+ department
                      +:+ " department");
    "timestamp" := VStr (isoformat stamp);
    "by" := VStr "AI System"
  ]}.

(** Modelled from the spec: the partial update of the record store, which
    is not part of [ai.py]: "given a document id and a mapping of field
    name to new value, merges those fields into the existing document
    without touching unspecified fields". *)
Definition apply_update (payload data : gmap string value)
    : gmap string value :=
  payload ∪ data.

Definition added (doc : DocumentSnapshot) : DocumentChange :=
  {| type := ADDED; document := doc |}.
Definition modified (doc : DocumentSnapshot) : DocumentChange :=
  {| type := MODIFIED; document := doc |}.

(** The world after one more reading of the clock. *)
Definition tick (w : world) : world :=
  mk_world (S (ticks w)) (updates w) (printed w).

(** The payloads that the listener can issue. *)
Definition is_classification (p : gmap string value) : Prop :=
  ∃ dept dc prio pc deadline acts last,
    p = classification_payload dept dc prio pc deadline acts last.

Definition is_overdue_flag (p : gmap string value) : Prop :=
  p = {[ "overdue" := VBool true ]}.

(** ** Notions of the further properties *)


(** Two normalised texts put together: with one space between them when
    both are there. *)
Definition join_texts (a b : string) : string :=
  if String.eqb a "" then b
  else if String.eqb b "" then a
  else a +:+ " " +:+ b.

(** The last character of [s] is not white space. *)
Fixpoint ends_in_nonspace (s : string) : bool :=
  match s with
  | EmptyString => false
  | String c EmptyString => negb (Str.isspace c)
  | String _ r => ends_in_nonspace r
  end.

(** The score of one tier of the priority table. *)
Definition tier_score (tier text : string) : nat :=
  keyword_score text (default [] (odict.get PRIORITY_KEYWORDS tier)).

(** What [set_deadline] adds to the clock reading. *)
Definition window (priority : string) : timedelta :=
  if String.eqb priority "High" then timedelta_hours 24
  else if String.eqb priority "Medium" then timedelta_hours 72
  else timedelta_days 7.

(** The world after the classification of [doc] from [w]: three readings
    of the clock, one update and one line. *)
Definition classified_world (clock : nat → Z) (isoformat : datetime → string)
    (doc : DocumentSnapshot) (w : world)
    (dept : string) (dc : nat) (prio : string) (pc : nat)
    (acts : list value) : world :=
  let deadline := naive (clock (ticks w) + window prio) in
  mk_world (3 + ticks w)
    (updates w ++ [(id doc,
       classification_payload dept dc prio pc deadline
         (acts ++ [classification_entry isoformat dept prio
                     (naive (clock (1 + ticks w)))])
         (naive (clock (2 + ticks w))))])
    (printed w ++ [line_classified (id doc) dept prio deadline]).

Definition removed (doc : DocumentSnapshot) : DocumentChange :=
  {| type := REMOVED; document := doc |}.

Definition not_removed (change : DocumentChange) : bool :=
  match type change with
  | REMOVED => false
  | _ => true
  end.

(** The [MODIFIED] branch with its test replaced by a call of
    [check_overdue]. *)
Definition on_modified_by_check_overdue (clock : nat → Z)
    (doc : DocumentSnapshot) : M unit :=
  let data := to_dict doc in
  if ne_str (dict_get data "status") "resolved"
     && ne_str (dict_get data "status") "under_action" then
    late ← check_overdue clock (dict_get data "deadline");
    if (late : bool) then
      update (id doc) {[ "overdue" := VBool true ]};;
      print (line_overdue (id doc))
    else mret ()
  else mret ().


(** What one update says about the change that caused it. *)
Definition caused_by (c : DocumentChange) (ip : string * gmap string value)
    : Prop :=
  ip.1 = id (document c)
  ∧ ((type c = ADDED ∧ is_classification ip.2)
     ∨ (type c = MODIFIED ∧ is_overdue_flag ip.2)).



(** ** Sample inputs *)

Definition sample_clock : nat → Z := λ k, (1000 + Z.of_nat k)%Z.
Definition sample_isoformat : datetime → string :=
  λ _, "0001-01-01T00:00:00.001000".
Definition fresh_world : world := mk_world 0 [] [].

Definition manhole_doc : DocumentSnapshot := {|
  id := "complaint-1";
  fields := {[
    "status" := VStr "new";
    "description" := VStr "open manhole near the bus stop, very dangerous"
  ]}
|}.

Definition blank_doc : DocumentSnapshot := {|
  id := "complaint-2";
  fields := {[ "status" := VStr "new" ]}
|}.

Definition classified_doc : DocumentSnapshot := {|
  id := "complaint-3";
  fields := {[
    "status" := VStr "classified";
    "description" := VStr "water leak";
    "deadline" := VTime (mk_datetime 0 (Some 0%Z))
  ]}
|}.

Definition under_action_doc : DocumentSnapshot := {|
  id := "complaint-4";
  fields := {[
    "status" := VStr "under_action";
    "deadline" := VTime (mk_datetime 0 (Some 0%Z))
  ]}
|}.

(** * Facts *)

(** ** The examples of the specification *)

Example clean_water_leak : clean "Water LEAK!!" = "water leak".
Proof. reflexivity. Qed.

Example clean_manhole :
  clean "open manhole near the bus stop, very dangerous"
  = "open manhole near the bus stop very dangerous".
Proof. reflexivity. Qed.

Example predict_department_tap :
  predict_department "the water pipe is leaking near the tap"
  = Returned ("Water", 80).
Proof. reflexivity. Qed.

Example predict_priority_fire :
  predict_priority "live wire and fire" = Returned ("High", 50).
Proof. reflexivity. Qed.

(** ** Characters and the normal form of [clean] *)

Lemma az_or_space_isspace c :
  az_or_space c = true → Str.isspace c = Ascii.eqb c Str.space.
Proof. revert c. by intros [[] [] [] [] [] [] [] []]. Qed.

Lemma az_or_space_is_space c :
  az_or_space c = true → Ascii.is_space c = Str.isspace c.
Proof. revert c. by intros [[] [] [] [] [] [] [] []]. Qed.

Lemma isspace_space : Str.isspace Str.space = true.
Proof. reflexivity. Qed.

Lemma az_or_space_lower_char c :
  az_or_space c = true → Str.lower_char c = c.
Proof. revert c. by intros [[] [] [] [] [] [] [] []]. Qed.

Lemma all_chars_sub_not_az_space s :
  all_chars az_or_space (Str.sub_not_az_space s) = true.
Proof.
  unfold Str.sub_not_az_space.
  induction s as [|c s IH]; [done|]. cbn -[az_or_space].
  rewrite IH, andb_true_r. fold (az_or_space c).
  by destruct (az_or_space c) eqn:E.
Qed.

Lemma all_chars_sub_space_runs_from b s :
  all_chars az_or_space s = true →
  all_chars az_or_space (Str.sub_space_runs_from b s) = true.
Proof.
  revert b. induction s as [|c s IH]; intros b; [done|].
  cbn -[az_or_space]. intros [Hc Hs]%andb_true_iff.
  destruct (Str.isspace c), b; cbn -[az_or_space]; rewrite ?Hc, ?IH; done.
Qed.

Lemma all_chars_lstrip P s :
  all_chars P s = true → all_chars P (Str.lstrip s) = true.
Proof.
  induction s as [|c s IH]; [done|]. cbn. intros H.
  destruct (Str.isspace c); [|done].
  apply IH. by apply andb_true_iff in H as [_ ?].
Qed.

Lemma all_chars_rstrip P s :
  all_chars P s = true → all_chars P (Str.rstrip s) = true.
Proof.
  induction s as [|c s IH]; [done|]. cbn. intros [Hc Hs]%andb_true_iff.
  specialize (IH Hs). destruct (Str.rstrip s) as [|c' r'].
  - destruct (Str.isspace c); cbn; by rewrite ?Hc.
  - cbn in *. by rewrite Hc, IH.
Qed.

Lemma single_spaced_rstrip_runs b s :
  single_spaced (Str.rstrip (Str.sub_space_runs_from b s)) = true
  ∧ (b = true → no_leading_space (Str.rstrip (Str.sub_space_runs_from b s)) = true).
Proof.
  revert b. induction s as [|c s IH]; intros b; [done|].
  cbn. destruct (Str.isspace c) eqn:Hc.
  - destruct b.
    + apply IH.
    + destruct (IH true) as [H1 H2]. split; [|done]. cbn.
      destruct (Str.rstrip _) as [|c' r'] eqn:E; [done|].
      cbn in *. by rewrite H1, H2.
  - destruct (IH false) as [H1 _]. cbn.
    destruct (Str.rstrip _) as [|c' r'] eqn:E; cbn in *; rewrite ?Hc; cbn;
      rewrite ?Hc; by rewrite ?H1.
Qed.

Lemma single_spaced_lstrip s :
  single_spaced s = true → single_spaced (Str.lstrip s) = true.
Proof.
  induction s as [|c s IH]; [done|]. cbn.
  destruct (Str.isspace c) eqn:Hc; cbn; rewrite ?Hc; [|done].
  intros [_ H]%andb_true_iff. auto.
Qed.

Lemma no_leading_space_lstrip s : no_leading_space (Str.lstrip s) = true.
Proof.
  induction s as [|c s IH]; [done|]. cbn.
  destruct (Str.isspace c) eqn:Hc; cbn; by rewrite ?Hc.
Qed.

Lemma normalized_clean text : normalized (clean text) = true.
Proof.
  unfold normalized, clean, Str.strip, Str.sub_space_runs.
  rewrite no_leading_space_lstrip.
  rewrite single_spaced_lstrip by apply single_spaced_rstrip_runs.
  rewrite all_chars_lstrip; [done|].
  apply all_chars_rstrip, all_chars_sub_space_runs_from,
    all_chars_sub_not_az_space.
Qed.

(** The words of a text do not change along [clean]. *)
Lemma words_go_lstrip s :
  all_chars az_or_space s = true →
  String.words_go None (Str.lstrip s) = String.words_go None s.
Proof.
  induction s as [|c s IH]; [done|]. cbn -[az_or_space].
  intros [Hc Hs]%andb_true_iff.
  rewrite (az_or_space_is_space _ Hc).
  destruct (Str.isspace c) eqn:E; [by apply IH|].
  cbn. by rewrite (az_or_space_is_space _ Hc), E.
Qed.

Lemma words_go_rstrip cur s :
  all_chars az_or_space s = true →
  String.words_go cur (Str.rstrip s) = String.words_go cur s.
Proof.
  revert cur. induction s as [|c s IH]; intros cur; [done|].
  cbn -[az_or_space]. intros [Hc Hs]%andb_true_iff.
  rewrite (az_or_space_is_space _ Hc).
  destruct (Str.rstrip s) as [|c' r'] eqn:E.
  - destruct (Str.isspace c) eqn:E'.
    + rewrite <- (IH None Hs). cbn. by rewrite app_nil_r.
    + cbn. rewrite (az_or_space_is_space _ Hc), E'. by rewrite <- IH.
  - cbn -[String.words_go]. rewrite <- !IH by done.
    cbn. by rewrite (az_or_space_is_space _ Hc).
Qed.

Lemma words_go_runs b cur s :
  all_chars az_or_space s = true →
  (b = true → cur = None) →
  String.words_go cur (Str.sub_space_runs_from b s) = String.words_go cur s.
Proof.
  revert b cur. induction s as [|c s IH]; intros b cur; [done|].
  cbn -[az_or_space]. intros [Hc Hs]%andb_true_iff Hb.
  rewrite (az_or_space_is_space _ Hc).
  destruct (Str.isspace c) eqn:E.
  - destruct b.
    + rewrite Hb by done. cbn. by apply IH.
    + cbn. by rewrite IH.
  - cbn. rewrite (az_or_space_is_space _ Hc), E. apply IH; [done|congruence].
Qed.

Lemma rev_app_append a b s :
  String.rev_app a b +:+ s = String.rev_app a (b +:+ s).
Proof. revert b. induction a as [|c a IH]; intros b; [done|]. cbn. by rewrite IH. Qed.

Lemma append_cons c (s t : string) : String c s +:+ t = String c (s +:+ t).
Proof. reflexivity. Qed.

Lemma append_empty_r (s : string) : s +:+ "" = s.
Proof. induction s as [|c s IH]; [done|]. by rewrite append_cons, IH. Qed.

Lemma words_go_Some_cons cur s :
  ∃ w ws, String.words_go (Some cur) s = w :: ws.
Proof.
  revert cur. induction s as [|c s IH]; intros cur; cbn; [eauto|].
  destruct (Ascii.is_space c); cbn; eauto.
Qed.

Lemma concat_cons_cons sep (x y : string) l :
  String.concat sep (x :: y :: l) = x +:+ sep +:+ String.concat sep (y :: l).
Proof. done. Qed.

Lemma concat_words_go s :
  all_chars az_or_space s = true →
  single_spaced s = true →
  (∀ cur, String.concat " " (String.words_go (Some cur) s)
          = String.rev cur +:+ s)
  ∧ (no_leading_space s = true →
     String.concat " " (String.words_go None s) = s).
Proof.
  induction s as [|c s IH]; [intros _ _; split; [intros cur|done]|].
  { cbn. by rewrite append_empty_r. }
  cbn -[az_or_space String.concat]. intros [Hc Hs]%andb_true_iff.
  rewrite (az_or_space_is_space _ Hc).
  pose proof (az_or_space_isspace _ Hc) as Hsp.
  destruct (Str.isspace c) eqn:E.
  - intros [[Hne Hlead]%andb_true_iff Hss]%andb_true_iff.
    destruct (IH Hs Hss) as [_ IH2]. specialize (IH2 Hlead).
    symmetry in Hsp. apply Ascii.eqb_eq in Hsp as ->.
    split; [|done]. intros cur. cbn -[String.concat].
    destruct s as [|c' s']; [done|].
    assert (∃ w ws, String.words_go None (String c' s') = w :: ws) as (w&ws&Hw).
    { cbn. cbn in Hlead, Hs. apply andb_true_iff in Hs as [Hc' _].
      rewrite (az_or_space_is_space _ Hc').
      apply negb_true_iff in Hlead. rewrite Hlead.
      apply words_go_Some_cons. }
    rewrite Hw in *. rewrite concat_cons_cons, IH2. done.
  - intros Hss. destruct (IH Hs Hss) as [IH1 _]. split.
    + intros cur. cbn. rewrite IH1. unfold String.rev. cbn.
      by rewrite !rev_app_append.
    + intros _. rewrite IH1. done.
Qed.

Lemma map_id_on (f : ascii → ascii) P s :
  (∀ c, P c = true → f c = c) → all_chars P s = true → Str.map f s = s.
Proof.
  intros Hf. induction s as [|c s IH]; [done|]. cbn.
  intros [Hc Hs]%andb_true_iff. by rewrite Hf, IH.
Qed.

Lemma concat_words_normalized s :
  normalized s = true → String.concat " " (String.words s) = s.
Proof.
  unfold normalized. intros [[H1 H2]%andb_true_iff H3]%andb_true_iff.
  by apply concat_words_go.
Qed.

Lemma clean_normalize_spec text : clean text = normalize_spec text.
Proof.
  unfold normalize_spec.
  change (Str.map _ (Str.map Str.lower_char text))
    with (Str.sub_not_az_space (Str.lower text)).
  pose proof (all_chars_sub_not_az_space (Str.lower text)) as Hch.
  rewrite <- (concat_words_normalized (clean text)) by apply normalized_clean.
  f_equal. unfold clean, Str.strip, Str.sub_space_runs, String.words.
  rewrite words_go_lstrip, words_go_rstrip, words_go_runs; try done.
  - by apply all_chars_sub_space_runs_from.
  - by apply all_chars_rstrip, all_chars_sub_space_runs_from.
Qed.

Lemma clean_fixes_normalized s : normalized s = true → clean s = s.
Proof.
  intros Hn. rewrite clean_normalize_spec. unfold normalize_spec.
  pose proof Hn as [[H1 _]%andb_true_iff _]%andb_true_iff.
  rewrite (map_id_on Str.lower_char az_or_space s) by
    (done || apply az_or_space_lower_char).
  rewrite (map_id_on _ az_or_space s); [by apply concat_words_normalized| |done].
  intros c Hc. by rewrite Hc.
Qed.

(** ** Substrings, scores and the maximum *)

Lemma prefix_occurs k s :
  String.prefix k s = true ↔ ∃ post, s = k +:+ post.
Proof.
  revert s. induction k as [|a k IH]; intros s.
  - split; [eauto|]. by destruct s.
  - destruct s as [|b s]; cbn.
    + split; [done|]. by intros [post ?].
    + destruct (ascii_dec a b) as [->|Hab].
      * rewrite IH. split; intros [post Hp]; exists post.
        -- by rewrite append_cons, <- Hp.
        -- rewrite append_cons in Hp. congruence.
      * split; [done|]. intros [post Hp]. rewrite append_cons in Hp. congruence.
Qed.

Lemma contains_occurs s k : Str.contains s k = true ↔ occurs k s.
Proof.
  unfold occurs. induction s as [|c s IH].
  - cbn [Str.contains]. rewrite orb_false_r, prefix_occurs. split.
    + intros [post ?]. by exists "", post.
    + intros ([|? pre] & post & H); [by exists post|done].
  - cbn [Str.contains]. rewrite orb_true_iff, prefix_occurs, IH. split.
    + intros [[post H]|(pre & post & H)].
      * by exists "", post.
      * exists (String c pre), post. by rewrite append_cons, <- H.
    + intros ([|c' pre] & post & H).
      * left. by exists post.
      * right. exists pre, post. rewrite append_cons in H. congruence.
Qed.

Lemma keyword_score_length text kws :
  keyword_score text kws
  = length (List.filter (λ k, Str.contains text k) kws).
Proof.
  unfold keyword_score. induction (List.filter _ kws) as [|k l IH]; [done|].
  cbn. by rewrite IH.
Qed.

(** Dicts whose items have distinct keys. *)
Lemma odict_set_fresh {V} (d : odict.t V) k v :
  k ∉ d.*1 → odict.set d k v = d ++ [(k, v)].
Proof.
  induction d as [|[k' v'] d IH]; [done|]. cbn.
  intros Hk. apply not_elem_of_cons in Hk as [Hne Hk].
  destruct (String.eqb_spec k' k); [congruence|]. by rewrite IH.
Qed.

Lemma odict_of_items_NoDup {V} (l : list (string * V)) :
  NoDup l.*1 → odict.of_items l = l.
Proof.
  unfold odict.of_items.
  enough (∀ acc, NoDup (acc ++ l).*1 →
            fold_left (λ d kv, odict.set d kv.1 kv.2) l acc = acc ++ l) as H
    by (intros; by apply (H [])).
  induction l as [|[k v] l IH]; intros acc Hnd; cbn.
  - by rewrite app_nil_r.
  - rewrite odict_set_fresh.
    + rewrite IH; rewrite <- app_assoc; done.
    + rewrite fmap_app in Hnd. apply NoDup_app in Hnd as (_ & Hd & _).
      intros Hin. apply (Hd k Hin). cbn. left.
  Qed.

Lemma odict_get_lookup {V} (d : odict.t V) i k v :
  NoDup d.*1 → d !! i = Some (k, v) → odict.get d k = Some v.
Proof.
  revert i. induction d as [|[k' v'] d IH]; intros i Hnd Hi; [done|].
  cbn in *. apply NoDup_cons in Hnd as [Hk' Hnd].
  destruct i as [|i]; cbn in Hi.
  - injection Hi as -> ->. by rewrite String.eqb_refl.
  - destruct (String.eqb_spec k' k) as [->|_]; [|by eapply IH].
    exfalso. apply Hk'. apply (list_elem_of_fmap_2 fst _ (k, v)).
    by eapply list_elem_of_lookup_2.
Qed.

Lemma max_from_spec {A} (f : A → nat) (key : A → option nat) rest :
  ∀ pre b post,
    (∀ x, x ∈ pre → f x < f b) →
    (∀ x, x ∈ post → f x ≤ f b) →
    (∀ x, x ∈ rest → key x = Some (f x)) →
    ∃ pre' m post',
      pre ++ b :: post ++ rest = pre' ++ m :: post'
      ∧ max_from key b (Some (f b)) rest = Returned m
      ∧ (∀ x, x ∈ pre' → f x < f m)
      ∧ (∀ x, x ∈ post' → f x ≤ f m).
Proof.
  induction rest as [|x rest IH]; intros pre b post Hpre Hpost Hkey.
  - exists pre, b, post. rewrite app_nil_r. cbn. auto.
  - cbn [max_from]. rewrite (Hkey x) by left. cbn -[Nat.ltb].
    destruct (f b <? f x) eqn:Hlt.
    + apply Nat.ltb_lt in Hlt.
      destruct (IH (pre ++ b :: post) x []) as (pre' & m & post' & E & ? & ? & ?).
      * intros y [Hy|Hy]%elem_of_app; [specialize (Hpre y Hy); lia|].
        apply elem_of_cons in Hy as [->|Hy]; [done|].
        specialize (Hpost y Hy). lia.
      * by intros y ?%elem_of_nil.
      * intros y Hy. apply Hkey. by right.
      * exists pre', m, post'. split_and!; [|done..].
        rewrite <- E. cbn. by rewrite <- app_assoc.
    + apply Nat.ltb_ge in Hlt.
      destruct (IH pre b (post ++ [x])) as (pre' & m & post' & E & ? & ? & ?).
      * done.
      * intros y [Hy|Hy]%elem_of_app; [by apply Hpost|].
        apply list_elem_of_singleton in Hy as ->. done.
      * intros y Hy. apply Hkey. by right.
      * exists pre', m, post'. split_and!; [|done..].
        rewrite <- E. by rewrite <- (app_assoc post [x] rest).
Qed.

Lemma classify_spec table factor text :
  table ≠ [] →
  NoDup (odict.keys table) →
  ∃ i best kws,
    odict.items table !! i = Some (best, kws)
    ∧ classify table factor text
      = Returned (best, keyword_score text kws * factor)
    ∧ (∀ j c ks, odict.items table !! j = Some (c, ks) →
         keyword_score text ks ≤ keyword_score text kws)
    ∧ (∀ j c ks, j < i → odict.items table !! j = Some (c, ks) →
         keyword_score text ks < keyword_score text kws).
Proof.
  intros Hne Hnd. unfold classify, score_table, odict.items, odict.keys in *.
  set (scores := (λ ck : string * list string, (ck.1, keyword_score text ck.2)) <$> table).
  assert (scores.*1 = table.*1) as Hkeys.
  { unfold scores. rewrite <- list_fmap_compose. done. }
  rewrite odict_of_items_NoDup by (by rewrite Hkeys).
  assert (∀ i c ks, table !! i = Some (c, ks) →
            odict.get scores c = Some (keyword_score text ks)) as Hget.
  { intros i c ks Hi. apply (odict_get_lookup scores i); [by rewrite Hkeys|].
    unfold scores. by rewrite list_lookup_fmap, Hi. }
  set (f := λ c, default 0 (odict.get scores c)).
  assert (∀ c, c ∈ table.*1 → odict.get scores c = Some (f c)) as Hf.
  { intros c (ck & -> & [i Hi]%list_elem_of_lookup)%list_elem_of_fmap.
    destruct ck as [c ks]. unfold f. cbn [fst]. by rewrite (Hget i c ks Hi). }
  unfold best_key, odict.keys, py_max. rewrite Hkeys.
  destruct (table.*1) as [|c0 rest] eqn:Etab; [by destruct table|].
  destruct (max_from_spec f (odict.get scores) rest [] c0 [])
    as (pre & m & post & E & Hmax & Hpre & Hpost).
  { by intros ? ?%elem_of_nil. } { by intros ? ?%elem_of_nil. }
  { intros c Hc. apply Hf. by right. }
  cbn [app] in E.
  rewrite (Hf c0) by left. rewrite Hmax. cbn [mbind outcome_bind].
  assert (table.*1 !! length pre = Some m) as Hm.
  { rewrite Etab, E. by apply list_lookup_middle. }
  rewrite list_lookup_fmap in Hm.
  destruct (table !! length pre) as [[m' kws]|] eqn:Hi; [|done].
  cbn in Hm. injection Hm as ->.
  exists (length pre), m, kws. split; [done|].
  pose proof (Hget _ _ _ Hi) as Hgm.
  assert (f m = keyword_score text kws) as Hfm by (unfold f; by rewrite Hgm).
  unfold odict.subscript. rewrite Hgm. cbn [mbind outcome_bind mret outcome_ret].
  split; [done|]. rewrite <- Hfm. split.
  - intros j c ks Hj.
    assert (f c = keyword_score text ks) as <-
      by (unfold f; by rewrite (Hget _ _ _ Hj)).
    assert (c ∈ pre ++ m :: post) as Hin.
    { rewrite <- E, <- Etab. apply (list_elem_of_fmap_2 fst _ (c, ks)).
      by eapply list_elem_of_lookup_2. }
    apply elem_of_app in Hin as [Hin|Hin]; [specialize (Hpre _ Hin); lia|].
    apply elem_of_cons in Hin as [->|Hin]; [done|]. by apply Hpost.
  - intros j c ks Hlt Hj.
    assert (f c = keyword_score text ks) as <-
      by (unfold f; by rewrite (Hget _ _ _ Hj)).
    apply Hpre.
    assert (table.*1 !! j = Some c) as Hc by (by rewrite list_lookup_fmap, Hj).
    rewrite Etab, E, lookup_app_l in Hc by done.
    by eapply list_elem_of_lookup_2.
Qed.

Lemma KEYWORDS_dict : KEYWORDS ≠ [] ∧ NoDup (odict.keys KEYWORDS).
Proof. split; [done|]. apply (bool_decide_unpack _). by vm_compute. Qed.

Lemma PRIORITY_KEYWORDS_dict :
  PRIORITY_KEYWORDS ≠ [] ∧ NoDup (odict.keys PRIORITY_KEYWORDS).
Proof. split; [done|]. apply (bool_decide_unpack _). by vm_compute. Qed.

Lemma predict_department_total text :
  ∃ dept dc, predict_department text = Returned (dept, dc).
Proof.
  destruct KEYWORDS_dict as [H1 H2].
  destruct (classify_spec KEYWORDS 20 text H1 H2) as (_ & d & k & _ & H & _).
  eauto.
Qed.

Lemma predict_priority_total text :
  ∃ prio pc, predict_priority text = Returned (prio, pc).
Proof.
  destruct PRIORITY_KEYWORDS_dict as [H1 H2].
  destruct (classify_spec PRIORITY_KEYWORDS 25 text H1 H2)
    as (_ & d & k & _ & H & _).
  eauto.
Qed.

(** ** The listener *)

Ltac unfold_monad :=
  unfold mbind, M_bind, mret, M_ret, lift, update, print, datetime_now,
    outcome_bind, outcome_ret.

Lemma for_each_singleton {A} (body : A → M unit) x w :
  for_each body [x] w = body x w.
Proof.
  cbn. unfold_monad. by destruct (body x w) as [[[]|e] w'].
Qed.

Lemma dict_get_Some data key v : data !! key = Some v → dict_get data key = v.
Proof. unfold dict_get. by intros ->. Qed.

Lemma dict_get_None data key : data !! key = None → dict_get data key = VNone.
Proof. unfold dict_get. by intros ->. Qed.

Lemma dict_get_default_None data key dflt :
  data !! key = None → dict_get_default data key dflt = dflt.
Proof. unfold dict_get_default. by intros ->. Qed.

Lemma dict_get_default_Some data key dflt v :
  data !! key = Some v → dict_get_default data key dflt = v.
Proof. unfold dict_get_default. by intros ->. Qed.

Lemma on_snapshot_added clock isoformat doc w :
  on_snapshot clock isoformat [added doc] w = on_added clock isoformat doc w.
Proof. unfold on_snapshot. by rewrite for_each_singleton. Qed.

Lemma on_snapshot_modified clock isoformat doc w :
  on_snapshot clock isoformat [modified doc] w = on_modified clock doc w.
Proof. unfold on_snapshot. by rewrite for_each_singleton. Qed.

Section ListenerFacts.
Variable clock : nat → Z.
Variable isoformat : datetime → string.

Lemma set_deadline_run priority w :
  set_deadline clock priority w
  = (Returned (datetime_add (naive (clock (ticks w)))
                 (if String.eqb priority "High" then timedelta_hours 24
                  else if String.eqb priority "Medium" then timedelta_hours 72
                  else timedelta_days 7)),
     mk_world (S (ticks w)) (updates w) (printed w)).
Proof.
  unfold set_deadline. unfold_monad.
  by destruct (String.eqb priority "High"), (String.eqb priority "Medium").
Qed.

Lemma on_added_classifies doc w raw acts dept dc prio pc :
  fields doc !! "status" = Some (VStr "new") →
  dict_get_default (fields doc) "description" (VStr "") = VStr raw →
  dict_get_default (fields doc) "actions" (VList []) = VList acts →
  predict_department (clean raw) = Returned (dept, dc) →
  predict_priority (clean raw) = Returned (prio, pc) →
  on_added clock isoformat doc w
  = (Returned (),
     let deadline := datetime_add (naive (clock (ticks w)))
                 (if String.eqb prio "High" then timedelta_hours 24
                  else if String.eqb prio "Medium" then timedelta_hours 72
                  else timedelta_days 7) in
     mk_world (3 + ticks w)
       (updates w ++ [(id doc,
          classification_payload dept dc prio pc deadline
            (acts ++ [classification_entry isoformat dept prio
                        (naive (clock (1 + ticks w)))])
            (naive (clock (2 + ticks w))))])
       (printed w ++ [line_classified (id doc) dept prio deadline])).
Proof.
  intros Hst Hdesc Hacts Hd Hp. unfold on_added, to_dict.
  rewrite (dict_get_Some _ _ _ Hst), Hdesc, Hacts.
  change (ne_str (VStr "new") "new") with false. cbv iota.
  unfold mbind at 1. unfold M_bind at 1. unfold lift at 1.
  cbn [str_method_receiver].
  unfold mbind at 1. unfold M_bind at 1. unfold lift at 1. rewrite Hd.
  cbv beta iota.
  unfold mbind at 1. unfold M_bind at 1. unfold lift at 1. rewrite Hp.
  cbv beta iota.
  unfold mbind at 1. unfold M_bind at 1. rewrite set_deadline_run.
  unfold_monad. cbn [value_append ticks updates printed].
  reflexivity.
Qed.

Lemma ne_str_false v s : ne_str v s = false ↔ v = VStr s.
Proof.
  unfold ne_str, eq_str. rewrite negb_false_iff.
  destruct v; try (split; [done|congruence]).
  rewrite String.eqb_eq. split; congruence.
Qed.

Lemma ne_str_true v s : ne_str v s = true ↔ v ≠ VStr s.
Proof.
  rewrite <- ne_str_false. destruct (ne_str v s); split; congruence.
Qed.

Lemma status_not_new data :
  data !! "status" ≠ Some (VStr "new") →
  ne_str (dict_get data "status") "new" = true.
Proof.
  intros H. apply ne_str_true. unfold dict_get.
  destruct (data !! "status") as [v|]; cbn; congruence.
Qed.

Lemma on_added_not_new doc w :
  fields doc !! "status" ≠ Some (VStr "new") →
  on_added clock isoformat doc w = (Returned (), w).
Proof.
  intros H. unfold on_added, to_dict. by rewrite status_not_new.
Qed.

Lemma on_added_updates doc w :
  ∃ r w', on_added clock isoformat doc w = (r, w')
    ∧ (updates w' = updates w
       ∨ ∃ dept dc prio pc deadline acts,
           updates w'
           = updates w ++ [(id doc,
               classification_payload dept dc prio pc deadline acts
                 (naive (clock (2 + ticks w))))]).
Proof.
  unfold on_added, to_dict.
  destruct (ne_str _ "new"); [by eexists _, _; split; [|left]|].
  unfold mbind at 1. unfold M_bind at 1. unfold lift at 1.
  destruct (str_method_receiver _) as [raw|e];
    [|by eexists _, _; split; [|left]].
  unfold mbind at 1. unfold M_bind at 1. unfold lift at 1.
  destruct (predict_department _) as [[dept dc]|e];
    [|by eexists _, _; split; [|left]].
  unfold mbind at 1. unfold M_bind at 1. unfold lift at 1.
  destruct (predict_priority _) as [[prio pc]|e];
    [|by eexists _, _; split; [|left]].
  unfold mbind at 1. unfold M_bind at 1. rewrite set_deadline_run.
  unfold_monad.
  destruct (value_append _ _) as [v|e] eqn:Happ;
    [|by eexists _, _; split; [|left]].
  eexists _, _; split; [done|]. right. cbn [updates ticks printed].
  destruct (dict_get_default _ "actions" _); try done.
  injection Happ as <-. do 6 eexists. reflexivity.
Qed.

Lemma on_modified_run doc w :
  on_modified clock doc w =
    if ne_str (dict_get (fields doc) "status") "resolved"
       && ne_str (dict_get (fields doc) "status") "under_action"
       && truthy (dict_get (fields doc) "deadline")
    then match dict_get (fields doc) "deadline" with
         | VTime d =>
             if (wall d <? clock (ticks w))%Z
             then (Returned (),
                   mk_world (S (ticks w))
                     (updates w ++ [(id doc, {[ "overdue" := VBool true ]})])
                     (printed w ++ [line_overdue (id doc)]))
             else (Returned (), mk_world (S (ticks w)) (updates w) (printed w))
         | VStr _ => (Raised TypeError, w)
         | _ => (Raised AttributeError, w)
         end
    else (Returned (), w).
Proof.
  unfold on_modified, to_dict.
  destruct (ne_str _ "resolved"), (ne_str _ "under_action"); cbn [andb]; try done.
  destruct (truthy _) eqn:Ht; [|done].
  destruct (dict_get _ "deadline") as [| | | |d| |]; try done.
  unfold_monad. cbn. by destruct (wall d <? clock (ticks w))%Z.
Qed.

Lemma on_modified_updates doc w :
  ∃ r w', on_modified clock doc w = (r, w')
    ∧ (updates w' = updates w
       ∨ ∃ p, is_overdue_flag p ∧ updates w' = updates w ++ [(id doc, p)]).
Proof.
  rewrite on_modified_run.
  destruct (_ && _); [|by eexists _, _; split; [|left]].
  destruct (dict_get _ "deadline") as [| | | |d| |];
    try (by eexists _, _; split; [|left]).
  destruct (wall d <? clock (ticks w))%Z;
    [|by eexists _, _; split; [|left]].
  eexists _, _; split; [done|]. right. by eexists.
Qed.

Lemma on_snapshot_updates changes w :
  ∃ us, updates (on_snapshot clock isoformat changes w).2 = updates w ++ us
    ∧ Forall (λ ip, is_classification ip.2 ∨ is_overdue_flag ip.2) us.
Proof.
  unfold on_snapshot. revert w.
  induction changes as [|[ty doc] changes IH]; intros w.
  - exists []. by rewrite app_nil_r.
  - cbn [for_each type document]. unfold mbind at 1. unfold M_bind at 1.
    assert (∃ r w', (match ty with
                     | ADDED => on_added clock isoformat doc
                     | MODIFIED => on_modified clock doc
                     | REMOVED => mret ()
                     end) w = (r, w')
              ∧ ∃ us, updates w' = updates w ++ us
                  ∧ Forall (λ ip, is_classification ip.2
                                  ∨ is_overdue_flag ip.2) us)
      as (r & w' & -> & us & Hus & HP).
    { destruct ty.
      - destruct (on_added_updates doc w)
          as (r & w' & -> & [H|(dept & dc & prio & pc & dl & acts & H)]);
          eexists _, _; (split; [done|]).
        + exists []. by rewrite app_nil_r.
        + eexists [_]. split; [done|]. apply Forall_singleton. left.
          by do 7 eexists.
      - eexists _, _; split; [done|]. exists []. by rewrite app_nil_r.
      - destruct (on_modified_updates doc w) as (r & w' & -> & [H|(p & Hp & H)]);
          eexists _, _; (split; [done|]).
        + exists []. by rewrite app_nil_r.
        + exists [(id doc, p)]. split; [done|]. apply Forall_singleton. by right. }
    destruct r as [[]|e].
    + destruct (IH w') as (us' & Hus' & HP').
      exists (us ++ us'). rewrite Hus', Hus, app_assoc. split; [done|].
      by apply Forall_app.
    + exists us. by cbn.
Qed.

Lemma issued_app (m : M unit) w us :
  updates (m w).2 = updates w ++ us → issued m w = us.
Proof. unfold issued. intros ->. by rewrite drop_app_length. Qed.
Lemma issued_run (m : M unit) w r w' us :
  m w = (r, w') → updates w' = updates w ++ us → issued m w = us.
Proof. intros Hm Hu. apply issued_app. by rewrite Hm. Qed.

Lemma ne_str_lookup data key s :
  ne_str (dict_get data key) s = true ↔ data !! key ≠ Some (VStr s).
Proof.
  rewrite ne_str_true. unfold dict_get.
  destruct (data !! key) as [v|]; cbn; split; congruence.
Qed.

Lemma on_modified_issued doc w :
  issued (on_modified clock doc) w
  = if ne_str (dict_get (fields doc) "status") "resolved"
       && ne_str (dict_get (fields doc) "status") "under_action"
       && match dict_get (fields doc) "deadline" with
          | VTime d => (wall d <? clock (ticks w))%Z
          | _ => false
          end
    then [(id doc, {[ "overdue" := VBool true ]})]
    else [].
Proof.
  pose proof (on_modified_run doc w) as Hrun.
  destruct (ne_str _ "resolved"), (ne_str _ "under_action");
    cbn [andb] in *;
    try (eapply issued_run; [exact Hrun|by rewrite app_nil_r]).
  destruct (dict_get _ "deadline") as [|[]|n|s|d|l|m];
    cbn [truthy] in *;
    try (eapply issued_run; [exact Hrun|by rewrite app_nil_r]).
  - destruct (negb (n =? 0)%Z);
      eapply issued_run; solve [exact Hrun|by rewrite app_nil_r].
  - destruct (negb (String.eqb s ""));
      eapply issued_run; solve [exact Hrun|by rewrite app_nil_r].
  - destruct (wall d <? clock (ticks w))%Z;
      eapply issued_run; solve [exact Hrun|by rewrite ?app_nil_r].
  - destruct (negb (length l =? 0));
      eapply issued_run; solve [exact Hrun|by rewrite app_nil_r].
  - destruct (negb (size m =? 0));
      eapply issued_run; solve [exact Hrun|by rewrite app_nil_r].
Qed.

End ListenerFacts.

(** * Properties of the specification *)

(** C7. For every text, [clean] returns the text in lower case, with
    every character outside [[a-z ]] turned into white space, the runs of
    white space collapsed to one space and both ends trimmed: it agrees
    with [normalize_spec] and its result is in normal form. It is a
    total function; the empty text gives the empty text, and
    ["Water LEAK!!"] gives ["water leak"]. *)
Theorem clean_normalizes :
  (∀ text, clean text = normalize_spec text)
  ∧ (∀ text, normalized (clean text) = true)
  ∧ clean "" = ""
  ∧ clean "Water LEAK!!" = "water leak".
Proof.
  split_and!; [apply clean_normalize_spec|apply normalized_clean|done..].
Qed.

(** C8. [clean] is idempotent: its result is in normal form, and it
    leaves a text in normal form as it is. *)
Theorem clean_clean : ∀ x, clean (clean x) = clean x.
Proof.
  intros x. apply clean_fixes_normalized. apply normalized_clean.
Qed.

(** C2. The score of a category is the number of its keywords that occur
    in the text as substrings, each keyword of the list counted once
    however often it occurs. For every table that is a non-empty dict,
    the classifier returns the first category, in the order of the
    table, whose score is the greatest, with that score times the factor
    as confidence. [predict_department] is the classifier on [KEYWORDS]
    with factor 20 and [predict_priority] the one on [PRIORITY_KEYWORDS]
    with factor 25. The confidence is not capped: some texts get more
    than 100. *)
Theorem classifier_scores_and_picks_first_maximum :
  (∀ text keywords,
     keyword_score text keywords
     = length (List.filter (λ k, Str.contains text k) keywords))
  ∧ (∀ text k, Str.contains text k = true ↔ occurs k text)
  ∧ keyword_score "water water water" ["water"] = 1
  ∧ (∀ table factor text,
       table ≠ [] →
       NoDup (odict.keys table) →
       ∃ i best kws,
         odict.items table !! i = Some (best, kws)
         ∧ classify table factor text
           = Returned (best, keyword_score text kws * factor)
         ∧ (∀ j c ks, odict.items table !! j = Some (c, ks) →
              keyword_score text ks ≤ keyword_score text kws)
         ∧ (∀ j c ks, j < i → odict.items table !! j = Some (c, ks) →
              keyword_score text ks < keyword_score text kws))
  ∧ (∀ text, predict_department text = classify KEYWORDS 20 text)
  ∧ (∀ text, predict_priority text = classify PRIORITY_KEYWORDS 25 text)
  ∧ predict_department "water supply pipeline tap pressure tank"
    = Returned ("Water", 140)
  ∧ predict_priority "fire collapse fallen burst accident danger"
    = Returned ("High", 150).
Proof.
  split_and!; try done.
  - apply keyword_score_length.
  - apply contains_occurs.
  - apply classify_spec.
Qed.

Section ListenerClaims.

Variable clock : nat → Z.
Variable isoformat : datetime → string.

(** C3. With [T] the time that the clock reads, [set_deadline] returns
    [T] plus 24 hours for ["High"], [T] plus 72 hours for ["Medium"],
    and [T] plus 7 days for ["Low"] and for every other priority. *)
Theorem set_deadline_windows : ∀ w,
  let T := clock (ticks w) in
  set_deadline clock "High" w
  = (Returned (naive (T + timedelta_hours 24)), tick w)
  ∧ set_deadline clock "Medium" w
    = (Returned (naive (T + timedelta_hours 72)), tick w)
  ∧ set_deadline clock "Low" w
    = (Returned (naive (T + timedelta_days 7)), tick w)
  ∧ ∀ priority, priority ≠ "High" → priority ≠ "Medium" →
      set_deadline clock priority w
      = (Returned (naive (T + timedelta_days 7)), tick w).
Proof.
  intros w T. split_and!; try by rewrite set_deadline_run.
  intros p H1 H2. rewrite set_deadline_run.
  apply String.eqb_neq in H1, H2. by rewrite H1, H2.
Qed.

(** C4. [check_overdue] returns [False] for a deadline that is [None].
    For a timestamp it drops the time zone and returns whether the time
    that the clock reads is strictly greater than what remains: a
    deadline one hour before that time is overdue, and one that is one
    hour after it, or equal to it, is not. *)
Theorem check_overdue_spec : ∀ w,
  let T := clock (ticks w) in
  check_overdue clock VNone w = (Returned false, w)
  ∧ (∀ d, check_overdue clock (VTime d) w
          = (Returned (wall (replace_tzinfo_None d) <? T)%Z, tick w))
  ∧ (∀ tz, check_overdue clock
             (VTime (mk_datetime (T - timedelta_hours 1) tz)) w
           = (Returned true, tick w))
  ∧ (∀ tz, check_overdue clock
             (VTime (mk_datetime (T + timedelta_hours 1) tz)) w
           = (Returned false, tick w))
  ∧ (∀ tz, check_overdue clock (VTime (mk_datetime T tz)) w
           = (Returned false, tick w)).
Proof.
  intros w T.
  assert (∀ d, check_overdue clock (VTime d) w
               = (Returned (wall (replace_tzinfo_None d) <? T)%Z, tick w))
    as Hd by done.
  split_and!; [done|done|intros tz; rewrite Hd; cbn [wall replace_tzinfo_None]..].
  - do 2 f_equal. apply Z.ltb_lt. unfold timedelta_hours. lia.
  - do 2 f_equal. apply Z.ltb_ge. unfold timedelta_hours. lia.
  - do 2 f_equal. apply Z.ltb_irrefl.
Qed.

(** C1. An [ADDED] event for a record whose status is ["new"], whose
    description is "open manhole near the bus stop, very dangerous" and
    whose actions are a list (or are missing) makes the listener issue
    one update of that record: department ["Water"] with confidence 40,
    priority ["High"] with confidence 50, status ["classified"], the
    deadline 24 hours after the clock reading, and the actions of the
    record followed by exactly one new entry. *)
Theorem manhole_complaint_classified : ∀ doc w acts,
  fields doc !! "status" = Some (VStr "new") →
  fields doc !! "description"
    = Some (VStr "open manhole near the bus stop, very dangerous") →
  dict_get_default (fields doc) "actions" (VList []) = VList acts →
  ∃ payload entry w',
    on_snapshot clock isoformat [added doc] w = (Returned (), w')
    ∧ updates w' = updates w ++ [(id doc, payload)]
    ∧ payload !! "department" = Some (VStr "Water")
    ∧ payload !! "departmentConfidence" = Some (VInt 40)
    ∧ payload !! "priority" = Some (VStr "High")
    ∧ payload !! "priorityConfidence" = Some (VInt 50)
    ∧ payload !! "status" = Some (VStr "classified")
    ∧ payload !! "deadline"
      = Some (VTime (naive (clock (ticks w) + timedelta_hours 24)))
    ∧ payload !! "actions" = Some (VList (acts ++ [entry]))
    ∧ entry = classification_entry isoformat "Water" "High"
                (naive (clock (1 + ticks w))).
Proof.
  intros doc w acts Hst Hdesc Hacts.
  eexists _, _, _. rewrite on_snapshot_added.
  rewrite (on_added_classifies clock isoformat doc w _ acts "Water" 40 "High" 50
             Hst (dict_get_default_Some _ _ _ _ Hdesc) Hacts) by done.
  split_and!; reflexivity.
Qed.

(** C10. An [ADDED] event for a record whose status is ["new"] and that
    has no description (its actions being a list, or missing) does not
    raise. The text is taken to be empty, every category of both tables
    scores zero, and the first category of each table wins: the update
    sets department ["Water"] with confidence 0, priority ["High"] with
    confidence 0, and the deadline 24 hours after the clock reading. *)
Theorem missing_description_classified : ∀ doc w acts,
  fields doc !! "status" = Some (VStr "new") →
  fields doc !! "description" = None →
  dict_get_default (fields doc) "actions" (VList []) = VList acts →
  clean "" = ""
  ∧ score_table KEYWORDS "" = [("Water", 0); ("Electricity", 0);
      ("Municipality", 0); ("PWD", 0); ("Police", 0); ("Traffic", 0)]
  ∧ score_table PRIORITY_KEYWORDS "" = [("High", 0); ("Medium", 0); ("Low", 0)]
  ∧ predict_department "" = Returned ("Water", 0)
  ∧ predict_priority "" = Returned ("High", 0)
  ∧ ∃ payload w',
      on_snapshot clock isoformat [added doc] w = (Returned (), w')
      ∧ updates w' = updates w ++ [(id doc, payload)]
      ∧ payload !! "department" = Some (VStr "Water")
      ∧ payload !! "departmentConfidence" = Some (VInt 0)
      ∧ payload !! "priority" = Some (VStr "High")
      ∧ payload !! "priorityConfidence" = Some (VInt 0)
      ∧ payload !! "status" = Some (VStr "classified")
      ∧ payload !! "deadline"
        = Some (VTime (naive (clock (ticks w) + timedelta_hours 24))).
Proof.
  intros doc w acts Hst Hdesc Hacts. split_and!; try done.
  eexists _, _. rewrite on_snapshot_added.
  rewrite (on_added_classifies clock isoformat doc w "" acts "Water" 0 "High" 0
             Hst (dict_get_default_None _ _ _ Hdesc) Hacts) by done.
  split_and!; reflexivity.
Qed.

(** C5. An [ADDED] event for a record whose status is not ["new"], for
    one ["classified"], makes the listener issue nothing and change
    nothing. So a record is classified once: when the update of a
    classification has been merged into the record and the event comes
    again, nothing is issued. *)
Theorem added_not_new_ignored : ∀ doc w,
  (fields doc !! "status" ≠ Some (VStr "new") →
   on_snapshot clock isoformat [added doc] w = (Returned (), w))
  ∧ (fields doc !! "status" = Some (VStr "classified") →
     on_snapshot clock isoformat [added doc] w = (Returned (), w))
  ∧ (∀ raw acts,
       fields doc !! "status" = Some (VStr "new") →
       dict_get_default (fields doc) "description" (VStr "") = VStr raw →
       dict_get_default (fields doc) "actions" (VList []) = VList acts →
       ∃ payload w',
         on_snapshot clock isoformat [added doc] w = (Returned (), w')
         ∧ issued (on_snapshot clock isoformat [added doc]) w
           = [(id doc, payload)]
         ∧ let doc' := {| id := id doc;
                          fields := apply_update payload (fields doc) |} in
           on_snapshot clock isoformat [added doc'] w' = (Returned (), w')).
Proof.
  intros doc w. split_and!.
  - intros H. rewrite on_snapshot_added. by apply on_added_not_new.
  - intros H. rewrite on_snapshot_added. apply on_added_not_new. by rewrite H.
  - intros raw acts Hst Hdesc Hacts.
    destruct (predict_department_total (clean raw)) as (dept & dc & Hd).
    destruct (predict_priority_total (clean raw)) as (prio & pc & Hp).
    pose proof (on_added_classifies clock isoformat doc w raw acts dept dc
                  prio pc Hst Hdesc Hacts Hd Hp) as Hrun.
    eexists _, _. rewrite on_snapshot_added. split; [exact Hrun|]. split.
    + apply issued_app. rewrite on_snapshot_added, Hrun. reflexivity.
    + cbn zeta. rewrite on_snapshot_added. apply on_added_not_new.
      cbn [fields]. unfold apply_update.
      erewrite lookup_union_Some_l by reflexivity. done.
Qed.

(** C6. A [MODIFIED] event makes the listener issue at most one update,
    which sets [overdue] to [True] and nothing else, and it issues it
    exactly when the status is neither ["resolved"] nor ["under_action"]
    and the deadline is a timestamp that the clock reading has passed.
    For a record ["under_action"], whatever its deadline, nothing is
    issued. No update that the listener issues, for any list of events,
    sets [overdue] to [False]. *)
Theorem modified_overdue_guard : ∀ doc w,
  let run := on_snapshot clock isoformat [modified doc] in
  let flag : gmap string value := {[ "overdue" := VBool true ]} in
  (issued run w = [] ∨ issued run w = [(id doc, flag)])
  ∧ (issued run w = [(id doc, flag)] ↔
       fields doc !! "status" ≠ Some (VStr "resolved")
       ∧ fields doc !! "status" ≠ Some (VStr "under_action")
       ∧ ∃ d, fields doc !! "deadline" = Some (VTime d)
              ∧ (wall d < clock (ticks w))%Z)
  ∧ (fields doc !! "status" = Some (VStr "under_action") →
     run w = (Returned (), w))
  ∧ (fields doc !! "status" = Some (VStr "resolved") →
     run w = (Returned (), w))
  ∧ (∀ changes w0 i p,
       (i, p) ∈ issued (on_snapshot clock isoformat changes) w0 →
       p !! "overdue" ≠ Some (VBool false)).
Proof.
  intros doc w run flag.
  assert (issued run w = issued (on_modified clock doc) w) as ->.
  { unfold issued, run. by rewrite on_snapshot_modified. }
  rewrite on_modified_issued.
  split_and!.
  - destruct (_ && _); auto.
  - rewrite <- !ne_str_lookup.
    destruct (ne_str _ "resolved"), (ne_str _ "under_action"); cbn [andb];
      try (split; [done|by intros (? & ? & ?)]).
    unfold dict_get.
    destruct (fields doc !! "deadline") as [v|] eqn:Hdl; cbn.
    + destruct v as [| | | |d| |];
        try (split; [done|by intros (_ & _ & ? & ? & _)]).
      destruct (Z.ltb_spec (wall d) (clock (ticks w))).
      * split; [|done]. intros _. split_and!; try done. by exists d.
      * split; [done|]. intros (_ & _ & d' & [= <-] & ?). lia.
    + split; [done|by intros (_ & _ & ? & ? & _)].
  - intros Hst. unfold run. rewrite on_snapshot_modified, on_modified_run.
    by rewrite (dict_get_Some _ _ _ Hst).
  - intros Hst. unfold run. rewrite on_snapshot_modified, on_modified_run.
    by rewrite (dict_get_Some _ _ _ Hst).
  - intros changes w0 i p Hin.
    destruct (on_snapshot_updates clock isoformat changes w0) as (us & Hus & HP).
    rewrite (issued_app _ _ _ Hus) in Hin.
    rewrite Forall_forall in HP. apply HP in Hin as [Hc|Hf]; cbn in *.
    + destruct Hc as (? & ? & ? & ? & ? & ? & ? & ->). done.
    + rewrite Hf. done.
Qed.

End ListenerClaims.

(** C9. The update of a classification carries [lastUpdated], set to
    the third reading of the clock. The update that flags a record as
    overdue does not: it sets [overdue] only. For the record
    [classified_doc], whose deadline has passed, a [MODIFIED] event makes
    the listener issue the update [{"overdue": True}]. *)
Theorem overdue_update_lacks_lastUpdated :
  (∀ clock isoformat doc w,
     Forall (λ ip, ip.2 !! "lastUpdated"
                   = Some (VTime (naive (clock (2 + ticks w)))))
       (issued (on_snapshot clock isoformat [added doc]) w))
  ∧ (∀ clock isoformat doc w,
       Forall (λ ip, ip.2 !! "lastUpdated" = None)
         (issued (on_snapshot clock isoformat [modified doc]) w))
  ∧ (∀ isoformat,
       on_snapshot sample_clock isoformat [modified classified_doc] fresh_world
       = (Returned (),
          mk_world 1 [("complaint-3", {[ "overdue" := VBool true ]})]
            [line_overdue "complaint-3"])).
Proof.
  split_and!.
  - intros clock isoformat doc w.
    destruct (on_added_updates clock isoformat doc w)
      as (r & w' & Hrun & [H|(dept & dc & prio & pc & dl & acts & H)]).
    + rewrite (issued_run _ w r w' []); [constructor| |by rewrite app_nil_r].
      by rewrite on_snapshot_added.
    + rewrite (issued_run _ w r w' _
                 (eq_trans (on_snapshot_added _ _ _ _) Hrun) H).
      by apply Forall_singleton.
  - intros clock isoformat doc w.
    assert (issued (on_snapshot clock isoformat [modified doc]) w
            = issued (on_modified clock doc) w) as ->.
    { unfold issued. by rewrite on_snapshot_modified. }
    rewrite on_modified_issued. destruct (_ && _); [|constructor].
    by apply Forall_singleton.
  - intros isoformat. rewrite on_snapshot_modified. by vm_compute.
Qed.

(** * The properties on sample inputs *)

Lemma classifier_scores_and_picks_first_maximum_witness :
  KEYWORDS ≠ []
  ∧ NoDup (odict.keys KEYWORDS)
  ∧ ∃ i best kws,
      odict.items KEYWORDS !! i = Some (best, kws)
      ∧ classify KEYWORDS 20 "water leak"
        = Returned (best, keyword_score "water leak" kws * 20)
      ∧ (∀ j c ks, odict.items KEYWORDS !! j = Some (c, ks) →
           keyword_score "water leak" ks ≤ keyword_score "water leak" kws)
      ∧ (∀ j c ks, j < i → odict.items KEYWORDS !! j = Some (c, ks) →
           keyword_score "water leak" ks < keyword_score "water leak" kws).
Proof.
  split; [discriminate|]. split; [apply (bool_decide_unpack _); vm_compute; exact I|].
  apply (proj1 (proj2 (proj2 (proj2
           classifier_scores_and_picks_first_maximum)))).
  - discriminate.
  - apply (bool_decide_unpack _). vm_compute. exact I.
Defined.

Lemma set_deadline_windows_witness :
  "Urgent" ≠ "High"
  ∧ "Urgent" ≠ "Medium"
  ∧ set_deadline sample_clock "Urgent" fresh_world
    = (Returned (naive (sample_clock (ticks fresh_world) + timedelta_days 7)),
       tick fresh_world).
Proof.
  split; [discriminate|]. split; [discriminate|].
  apply (proj2 (proj2 (proj2 (set_deadline_windows sample_clock fresh_world))));
    discriminate.
Defined.

Lemma manhole_complaint_classified_witness :
  fields manhole_doc !! "status" = Some (VStr "new")
  ∧ fields manhole_doc !! "description"
    = Some (VStr "open manhole near the bus stop, very dangerous")
  ∧ dict_get_default (fields manhole_doc) "actions" (VList []) = VList []
  ∧ ∃ payload entry w',
      on_snapshot sample_clock sample_isoformat [added manhole_doc] fresh_world
      = (Returned (), w')
      ∧ updates w' = updates fresh_world ++ [(id manhole_doc, payload)]
      ∧ payload !! "department" = Some (VStr "Water")
      ∧ payload !! "departmentConfidence" = Some (VInt 40)
      ∧ payload !! "priority" = Some (VStr "High")
      ∧ payload !! "priorityConfidence" = Some (VInt 50)
      ∧ payload !! "status" = Some (VStr "classified")
      ∧ payload !! "deadline"
        = Some (VTime (naive (sample_clock (ticks fresh_world)
                              + timedelta_hours 24)))
      ∧ payload !! "actions" = Some (VList ([] ++ [entry]))
      ∧ entry = classification_entry sample_isoformat "Water" "High"
                  (naive (sample_clock (1 + ticks fresh_world))).
Proof.
  split; [|split; [|split]].
  4: apply (manhole_complaint_classified sample_clock sample_isoformat
              manhole_doc fresh_world []).
  all: vm_compute; reflexivity.
Defined.

Lemma missing_description_classified_witness :
  fields blank_doc !! "status" = Some (VStr "new")
  ∧ fields blank_doc !! "description" = None
  ∧ dict_get_default (fields blank_doc) "actions" (VList []) = VList []
  ∧ ∃ payload w',
      on_snapshot sample_clock sample_isoformat [added blank_doc] fresh_world
      = (Returned (), w')
      ∧ updates w' = updates fresh_world ++ [(id blank_doc, payload)]
      ∧ payload !! "department" = Some (VStr "Water")
      ∧ payload !! "departmentConfidence" = Some (VInt 0)
      ∧ payload !! "priority" = Some (VStr "High")
      ∧ payload !! "priorityConfidence" = Some (VInt 0)
      ∧ payload !! "status" = Some (VStr "classified")
      ∧ payload !! "deadline"
        = Some (VTime (naive (sample_clock (ticks fresh_world)
                              + timedelta_hours 24))).
Proof.
  split; [|split; [|split]].
  4: apply (missing_description_classified sample_clock sample_isoformat
              blank_doc fresh_world []).
  all: vm_compute; reflexivity.
Defined.

Lemma added_not_new_ignored_witness :
  fields classified_doc !! "status" ≠ Some (VStr "new")
  ∧ on_snapshot sample_clock sample_isoformat [added classified_doc] fresh_world
    = (Returned (), fresh_world)
  ∧ fields manhole_doc !! "status" = Some (VStr "new")
  ∧ ∃ payload w',
      on_snapshot sample_clock sample_isoformat [added manhole_doc] fresh_world
      = (Returned (), w')
      ∧ issued (on_snapshot sample_clock sample_isoformat [added manhole_doc])
          fresh_world
        = [(id manhole_doc, payload)]
      ∧ let doc' := {| id := id manhole_doc;
                       fields := apply_update payload (fields manhole_doc) |} in
        on_snapshot sample_clock sample_isoformat [added doc'] w'
        = (Returned (), w').
Proof.
  assert (fields classified_doc !! "status" ≠ Some (VStr "new")) as Hne
    by (vm_compute; discriminate).
  split; [exact Hne|]. split.
  - apply (proj1 (added_not_new_ignored sample_clock sample_isoformat
                    classified_doc fresh_world)).
    exact Hne.
  - split; [vm_compute; reflexivity|].
    apply (proj2 (proj2 (added_not_new_ignored sample_clock sample_isoformat
                           manhole_doc fresh_world))
             "open manhole near the bus stop, very dangerous" []);
      vm_compute; reflexivity.
Defined.

Lemma modified_overdue_guard_witness :
  fields under_action_doc !! "status" = Some (VStr "under_action")
  ∧ on_snapshot sample_clock sample_isoformat [modified under_action_doc]
      fresh_world
    = (Returned (), fresh_world)
  ∧ issued (on_snapshot sample_clock sample_isoformat [modified classified_doc])
      fresh_world
    = [("complaint-3", {[ "overdue" := VBool true ]})].
Proof.
  split; [vm_compute; reflexivity|]. split.
  - apply (proj1 (proj2 (proj2 (modified_overdue_guard sample_clock
                                  sample_isoformat under_action_doc
                                  fresh_world)))).
    vm_compute; reflexivity.
  - apply (proj2 (proj1 (proj2 (modified_overdue_guard sample_clock
                                  sample_isoformat classified_doc
                                  fresh_world)))).
    split; [vm_compute; discriminate|].
    split; [vm_compute; discriminate|].
    exists (mk_datetime 0 (Some 0%Z)). split; [vm_compute; reflexivity|].
    vm_compute; reflexivity.
Defined.

(** * Further properties *)

(** ** The normaliser *)













Lemma map_append f (a b : string) :
  Str.map f (a +:+ b) = Str.map f a +:+ Str.map f b.
Proof.
  induction a as [|c a IH]; [done|]. rewrite append_cons. cbn.
  by rewrite append_cons, IH.
Qed.

Lemma words_go_append_space cur a c b :
  Ascii.is_space c = true →
  String.words_go cur (a +:+ String c b)
  = String.words_go cur a ++ String.words_go None b.
Proof.
  intros Hc. revert cur. induction a as [|x a IH]; intros cur.
  - change ("" +:+ String c b) with (String c b). cbn. by rewrite Hc.
  - rewrite append_cons. cbn. destruct (Ascii.is_space x).
    + by rewrite IH, app_assoc.
    + by rewrite IH.
Qed.

Lemma rev_app_nonempty a b : b ≠ "" → String.rev_app a b ≠ "".
Proof.
  revert b. induction a as [|c a IH]; intros b Hb; [done|]. cbn. by apply IH.
Qed.

Lemma words_go_nonempty cur s :
  cur ≠ Some "" → Forall (λ w, w ≠ "") (String.words_go cur s).
Proof.
  revert cur. induction s as [|c s IH]; intros cur Hcur.
  - cbn. destruct cur as [x|]; cbn; [|constructor].
    apply Forall_singleton. destruct x; [congruence|].
    unfold String.rev. cbn. by apply rev_app_nonempty.
  - cbn. destruct (Ascii.is_space c).
    + apply Forall_app. split; [|by apply IH].
      destruct cur as [x|]; cbn; [|constructor].
      apply Forall_singleton. destruct x; [congruence|].
    unfold String.rev. cbn. by apply rev_app_nonempty.
    + apply IH. by destruct cur.
Qed.

Lemma concat_nonempty (sep : string) ws :
  Forall (λ w, w ≠ "") ws → ws ≠ [] → String.concat sep ws ≠ "".
Proof.
  intros Hws Hne. destruct ws as [|w ws]; [done|].
  apply Forall_cons in Hws as [Hw _]. destruct w as [|c w]; [done|].
  destruct ws; [done|]. rewrite concat_cons_cons, append_cons. done.
Qed.

Lemma append_assoc (a b c : string) : (a +:+ b) +:+ c = a +:+ b +:+ c.
Proof. induction a as [|x a IH]; [done|]. by rewrite !append_cons, IH. Qed.

Lemma concat_app (sep : string) l1 l2 :
  l1 ≠ [] → l2 ≠ [] →
  String.concat sep (l1 ++ l2)
  = String.concat sep l1 +:+ sep +:+ String.concat sep l2.
Proof.
  intros H1 H2. induction l1 as [|x l1 IH]; [done|].
  destruct l1 as [|y l1].
  - destruct l2; [done|]. done.
  - cbn [app]. rewrite !concat_cons_cons.
    change (y :: l1 ++ l2) with ((y :: l1) ++ l2). rewrite IH by done.
    by rewrite !append_assoc.
Qed.

(** X3. Cleaning two texts with one character that is not a letter
    between them gives the two cleaned texts, joined by one space when
    both are there. *)
Theorem clean_of_two_parts : ∀ a c b,
  Str.is_az (Str.lower_char c) = false →
  clean (a +:+ String c b) = join_texts (clean a) (clean b).
Proof.
  intros a c b Hc. rewrite !clean_normalize_spec. unfold normalize_spec.
  rewrite !map_append. cbn [Str.map]. unfold az_or_space at 2. rewrite Hc.
  cbn [orb].
  set (blank := λ x, if az_or_space x then x else " "%char).
  assert (Ascii.is_space (if Ascii.eqb (Str.lower_char c) Str.space
                          then Str.lower_char c else " "%char) = true) as Hsp.
  { by destruct (Ascii.eqb_spec (Str.lower_char c) Str.space) as [->|]. }
  unfold String.words. rewrite words_go_append_space by done.
  set (wa := String.words_go None _). set (wb := String.words_go None _).
  assert (Forall (λ w, w ≠ "") wa) as Ha by by apply words_go_nonempty.
  assert (Forall (λ w, w ≠ "") wb) as Hb by by apply words_go_nonempty.
  unfold join_texts.
  destruct wa as [|x wa].
  { cbn [app]. done. }
  destruct (String.eqb_spec (String.concat " " (x :: wa)) "") as [E|_].
  { by apply concat_nonempty in E. }
  destruct wb as [|y wb].
  { rewrite app_nil_r. done. }
  destruct (String.eqb_spec (String.concat " " (y :: wb)) "") as [E|_].
  { by apply concat_nonempty in E. }
  by apply concat_app.
Qed.

(** ** Scores and predictions *)

Lemma occurs_extend k text pre post :
  occurs k text → occurs k (pre +:+ text +:+ post).
Proof.
  intros (p & q & ->). exists (pre +:+ p), (q +:+ post).
  by rewrite !append_assoc.
Qed.

Lemma keyword_score_cons text k kws :
  keyword_score text (k :: kws)
  = (if Str.contains text k then 1 else 0) + keyword_score text kws.
Proof.
  rewrite !keyword_score_length. cbn. by destruct (Str.contains text k).
Qed.

Lemma keyword_score_le text kws : keyword_score text kws ≤ length kws.
Proof.
  induction kws as [|k kws IH]; [done|]. rewrite keyword_score_cons. cbn.
  destruct (Str.contains text k); lia.
Qed.

Lemma keyword_score_zero text kws :
  keyword_score text kws = 0 ↔ ∀ k, k ∈ kws → ¬ occurs k text.
Proof.
  induction kws as [|k kws IH]; [split; [by intros _ k ?%elem_of_nil|done]|].
  rewrite keyword_score_cons. destruct (Str.contains text k) eqn:E.
  - apply contains_occurs in E. split; [done|].
    intros H. exfalso. apply (H k); [left|done].
  - assert (¬ occurs k text) as Hk by (intros H%contains_occurs; congruence).
    cbn. rewrite IH. split.
    + intros H k' [->|Hk']%elem_of_cons; [done|]. by apply H.
    + intros H k' Hk'. apply H. by right.
Qed.

Lemma keyword_score_full text kws :
  keyword_score text kws = length kws ↔ ∀ k, k ∈ kws → occurs k text.
Proof.
  induction kws as [|k kws IH]; [split; [by intros _ k ?%elem_of_nil|done]|].
  rewrite keyword_score_cons. cbn [length].
  pose proof (keyword_score_le text kws).
  destruct (Str.contains text k) eqn:E.
  - apply contains_occurs in E. split.
    + intros Hs k' [->|Hk']%elem_of_cons; [done|]. apply IH; [lia|done].
    + intros Hall. f_equal. apply IH. intros k' Hk'. apply Hall. by right.
  - assert (¬ occurs k text) as Hk by (intros H'%contains_occurs; congruence).
    split; [lia|]. intros Hall. exfalso. apply Hk, Hall. left.
Qed.

(** X4. [keyword_score] is at most the number of keywords; it is zero
    exactly when no keyword occurs in the text, and the number of
    keywords exactly when all of them occur. *)
Theorem keyword_score_range : ∀ text keywords,
  keyword_score text keywords ≤ length keywords
  ∧ (keyword_score text keywords = 0
     ↔ ∀ k, k ∈ keywords → ¬ occurs k text)
  ∧ (keyword_score text keywords = length keywords
     ↔ ∀ k, k ∈ keywords → occurs k text).
Proof.
  intros text kws. split; [apply keyword_score_le|].
  split; [apply keyword_score_zero|apply keyword_score_full].
Qed.

(** X5. Text added in front of or behind a text never lowers its
    [keyword_score]. *)
Theorem keyword_score_monotone : ∀ text keywords pre post,
  keyword_score text keywords
  ≤ keyword_score (pre +:+ text +:+ post) keywords.
Proof.
  intros text kws pre post. induction kws as [|k kws IH]; [done|].
  rewrite !keyword_score_cons.
  destruct (Str.contains text k) eqn:E; [|lia].
  apply contains_occurs, (occurs_extend _ _ pre post), contains_occurs in E.
  rewrite E. lia.
Qed.

Lemma KEYWORDS_sizes :
  Forall (λ ck, length ck.2 ≤ 20) (odict.items KEYWORDS)
  ∧ Forall (λ ck, length ck.2 ≤ 14) (odict.items PRIORITY_KEYWORDS).
Proof. split; apply (bool_decide_unpack _); by vm_compute. Qed.

(** X7. [predict_department] returns one of the six departments of
    [KEYWORDS] with a confidence of 20 times the score of its keyword
    list, at most 400; [predict_priority] returns one of the three tiers
    with 25 times the score, at most 350. Neither raises. *)
Theorem predictions_stay_in_the_tables : ∀ text,
  (∃ dept kws,
     (dept, kws) ∈ odict.items KEYWORDS
     ∧ predict_department text = Returned (dept, keyword_score text kws * 20)
     ∧ dept ∈ ["Water"; "Electricity"; "Municipality"; "PWD"; "Police";
               "Traffic"]
     ∧ keyword_score text kws * 20 ≤ 400)
  ∧ (∃ prio kws,
       (prio, kws) ∈ odict.items PRIORITY_KEYWORDS
       ∧ predict_priority text = Returned (prio, keyword_score text kws * 25)
       ∧ prio ∈ ["High"; "Medium"; "Low"]
       ∧ keyword_score text kws * 25 ≤ 350).
Proof.
  intros text. destruct KEYWORDS_sizes as [Hs1 Hs2]. split.
  - destruct KEYWORDS_dict as [H1 H2].
    destruct (classify_spec KEYWORDS 20 text H1 H2) as (i & d & k & Hi & H & _).
    apply list_elem_of_lookup_2 in Hi as Hin.
    exists d, k. split_and!; [done|done| |].
    + apply (list_elem_of_fmap_2 fst) in Hin. exact Hin.
    + rewrite Forall_forall in Hs1. specialize (Hs1 _ Hin). cbn in Hs1.
      pose proof (keyword_score_le text k). lia.
  - destruct PRIORITY_KEYWORDS_dict as [H1 H2].
    destruct (classify_spec PRIORITY_KEYWORDS 25 text H1 H2)
      as (i & d & k & Hi & H & _).
    apply list_elem_of_lookup_2 in Hi as Hin.
    exists d, k. split_and!; [done|done| |].
    + apply (list_elem_of_fmap_2 fst) in Hin. exact Hin.
    + rewrite Forall_forall in Hs2. specialize (Hs2 _ Hin). cbn in Hs2.
      pose proof (keyword_score_le text k). lia.
Qed.

Lemma classify_zero table factor text first kws0 :
  table ≠ [] →
  NoDup (odict.keys table) →
  odict.items table !! 0 = Some (first, kws0) →
  0 < factor →
  (∀ c, classify table factor text = Returned (c, 0) → c = first)
  ∧ (classify table factor text = Returned (first, 0)
     ↔ ∀ c ks k, (c, ks) ∈ odict.items table → k ∈ ks → ¬ occurs k text).
Proof.
  intros Hne Hnd H0 Hf.
  destruct (classify_spec table factor text Hne Hnd)
    as (i & best & kws & Hi & Hrun & Hmax & Hfirst).
  assert (keyword_score text kws = 0 → best = first) as Hbest.
  { intros Hz. destruct i as [|i]; [congruence|].
    specialize (Hfirst 0 first kws0 ltac:(lia) H0). lia. }
  split.
  - intros c. rewrite Hrun. intros [= -> Hz]. apply Hbest. nia.
  - rewrite Hrun. split.
    + intros [= _ Hz] c ks k [j Hj]%list_elem_of_lookup Hk.
      assert (keyword_score text ks = 0) as Hks
        by (specialize (Hmax _ _ _ Hj); nia).
      by apply (proj1 (keyword_score_zero text ks) Hks).
    + intros Hnone.
      assert (keyword_score text kws = 0) as Hz.
      { apply keyword_score_zero. intros k Hk. eapply Hnone; [|done].
        by eapply list_elem_of_lookup_2. }
      rewrite Hz, (Hbest Hz). done.
Qed.

(** X8. A confidence of 0 goes with the first category only: ["Water"]
    for the department and ["High"] for the priority, and that is the
    result exactly when no keyword of the table occurs in the text. *)
Theorem no_keyword_means_first_category : ∀ text,
  (∀ dept, predict_department text = Returned (dept, 0) → dept = "Water")
  ∧ (predict_department text = Returned ("Water", 0)
     ↔ ∀ c ks k, (c, ks) ∈ odict.items KEYWORDS → k ∈ ks → ¬ occurs k text)
  ∧ (∀ prio, predict_priority text = Returned (prio, 0) → prio = "High")
  ∧ (predict_priority text = Returned ("High", 0)
     ↔ ∀ c ks k, (c, ks) ∈ odict.items PRIORITY_KEYWORDS → k ∈ ks →
                 ¬ occurs k text).
Proof.
  intros text.
  destruct KEYWORDS_dict as [H1 H2].
  destruct PRIORITY_KEYWORDS_dict as [H3 H4].
  destruct (classify_zero KEYWORDS 20 text "Water" _ H1 H2 eq_refl ltac:(lia))
    as [Ha Hb].
  destruct (classify_zero PRIORITY_KEYWORDS 25 text "High" _ H3 H4 eq_refl
              ltac:(lia)) as [Hc Hd].
  split_and!; done.
Qed.

(** X9. [predict_priority] by the three scores: ["High"] unless another
    tier scores strictly more, ["Medium"] when it beats ["High"] and
    ["Low"] does not beat it, ["Low"] when it beats both. *)
Theorem predict_priority_decision : ∀ text,
  let h := tier_score "High" text in
  let m := tier_score "Medium" text in
  let l := tier_score "Low" text in
  predict_priority text
  = Returned (if (m <=? h) && (l <=? h) then ("High", h * 25)
              else if l <=? m then ("Medium", m * 25)
              else ("Low", l * 25)).
Proof.
  intros text. unfold tier_score, predict_priority.
  cbv -[keyword_score Nat.ltb Nat.leb Nat.mul].
  set (h := keyword_score text _). set (m := keyword_score text _).
  set (l := keyword_score text _).
  destruct (Nat.ltb_spec h m), (Nat.leb_spec m h); try lia; cbn [andb].
  - destruct (Nat.ltb_spec m l), (Nat.leb_spec l m); try lia; done.
  - destruct (Nat.ltb_spec h l), (Nat.leb_spec l h); try lia; [|done].
    destruct (Nat.leb_spec l m); [lia|done].
Qed.

(** ** Keywords in a description *)

Lemma append_nil_l (s : string) : "" +:+ s = s.
Proof. done. Qed.

(** [sub_space_runs] in front of a character that is not white space. *)
Lemma runs_before_nonspace b p c s :
  Str.isspace c = false →
  Str.sub_space_runs_from b (p +:+ String c s)
  = Str.sub_space_runs_from b p +:+ String c (Str.sub_space_runs_from false s).
Proof.
  intros Hc. revert b. induction p as [|x p IH]; intros b.
  - rewrite !append_nil_l. cbn. by rewrite Hc.
  - rewrite append_cons. cbn. destruct (Str.isspace x), b;
      rewrite ?append_cons, IH; done.
Qed.

Lemma runs_single_spaced b k q :
  all_chars az_or_space k = true →
  single_spaced k = true →
  (b = true → no_leading_space k = true) →
  k ≠ "" →
  Str.sub_space_runs_from b (k +:+ q)
  = k +:+ Str.sub_space_runs_from false q.
Proof.
  revert b. induction k as [|c k IH]; intros b Hch Hs Hb Hne; [done|].
  cbn -[az_or_space] in Hch, Hs, Hb.
  apply andb_true_iff in Hch as [Hc Hch]. apply andb_true_iff in Hs as [Hs1 Hs].
  rewrite !append_cons. cbn.
  pose proof (az_or_space_isspace _ Hc) as Hsp.
  destruct (Str.isspace c) eqn:E.
  - symmetry in Hsp. apply Ascii.eqb_eq in Hsp as ->.
    destruct b; [by specialize (Hb eq_refl)|].
    apply andb_true_iff in Hs1 as [Hk Hl]. apply negb_true_iff in Hk.
    apply String.eqb_neq in Hk. by rewrite IH.
  - destruct k as [|c' k'].
    + by rewrite !append_nil_l.
    + by rewrite IH.
Qed.

Lemma occurs_lstrip k s :
  k ≠ "" → no_leading_space k = true → occurs k s → occurs k (Str.lstrip s).
Proof.
  intros Hne Hl. induction s as [|c s IH]; [done|].
  intros Hocc. cbn. destruct (Str.isspace c) eqn:E; [|done].
  apply IH. destruct Hocc as ([|x pre] & post & H).
  - rewrite append_nil_l in H. destruct k as [|y k]; [done|].
    rewrite append_cons in H. injection H as <- _. cbn in Hl. by rewrite E in Hl.
  - rewrite append_cons in H. injection H as _ ->. by exists pre, post.
Qed.

Lemma single_spaced_ends k :
  single_spaced k = true → k ≠ "" → ends_in_nonspace k = true.
Proof.
  induction k as [|c k IH]; [done|]. intros Hs _.
  cbn in Hs. apply andb_true_iff in Hs as [Hs1 Hs].
  destruct k as [|c' k'].
  - cbn. by destruct (Str.isspace c).
  - change (ends_in_nonspace (String c (String c' k')))
      with (ends_in_nonspace (String c' k')). by apply IH.
Qed.

Lemma rstrip_after k post :
  ends_in_nonspace k = true →
  Str.rstrip (k +:+ post) = k +:+ Str.rstrip post.
Proof.
  induction k as [|c k IH]; [done|]. intros He. rewrite !append_cons. cbn.
  destruct k as [|c' k'].
  - rewrite !append_nil_l. cbn in He. apply negb_true_iff in He.
    rewrite He. by destruct (Str.rstrip post).
  - rewrite IH by done. by rewrite append_cons.
Qed.

Lemma occurs_nonempty k s : k ≠ "" → occurs k s → s ≠ "".
Proof.
  intros Hne ([|x pre] & post & ->); [|done].
  rewrite append_nil_l. by destruct k.
Qed.

Lemma occurs_rstrip k s :
  ends_in_nonspace k = true → occurs k s → occurs k (Str.rstrip s).
Proof.
  intros He. assert (k ≠ "") as Hne by (by destruct k).
  induction s as [|c s IH]; [done|].
  intros ([|x pre] & post & H).
  - rewrite append_nil_l in H. rewrite H, rstrip_after by done.
    by exists "", (Str.rstrip post).
  - rewrite append_cons in H. injection H as <- ->.
    assert (occurs k (Str.rstrip (pre +:+ k +:+ post))) as Hocc
      by (apply IH; by exists pre, post).
    cbn. destruct (Str.rstrip _) as [|y r] eqn:E.
    + by apply occurs_nonempty in Hocc.
    + destruct Hocc as (p & q & ->). exists (String c p), q.
      by rewrite append_cons.
Qed.

Lemma occurs_clean k pre post :
  normalized k = true → k ≠ "" →
  occurs k (clean (pre +:+ k +:+ post)).
Proof.
  unfold normalized. intros [[Hch Hl]%andb_true_iff Hs]%andb_true_iff Hne.
  unfold clean, Str.strip, Str.sub_space_runs, Str.lower, Str.sub_not_az_space.
  rewrite !map_append.
  rewrite (map_id_on Str.lower_char az_or_space k)
    by (done || apply az_or_space_lower_char).
  rewrite (map_id_on _ az_or_space k);
    [|intros c Hc; unfold az_or_space in Hc; by rewrite Hc|done].
  set (P := Str.map _ (Str.map _ pre)). set (Q := Str.map _ (Str.map _ post)).
  apply occurs_lstrip; [done..|].
  apply occurs_rstrip; [by apply single_spaced_ends|].
  destruct k as [|c k']; [done|]. cbn in Hl. apply negb_true_iff in Hl.
  rewrite append_cons, runs_before_nonspace by done.
  destruct k' as [|c' k''].
  - rewrite !append_nil_l. by eexists _, _.
  - cbn -[az_or_space] in Hch, Hs. rewrite Hl in Hs.
    apply andb_true_iff in Hch as [_ Hch]. cbn in Hs.
    rewrite runs_single_spaced by done.
    eexists _, _. by rewrite <- append_cons.
Qed.

Lemma tables_keywords_normalized :
  Forall (λ ck, Forall (λ k, normalized k = true ∧ k ≠ "") ck.2)
    (odict.items KEYWORDS ++ odict.items PRIORITY_KEYWORDS).
Proof. apply (bool_decide_unpack _). by vm_compute. Qed.

Lemma keyword_score_pos text ks k :
  k ∈ ks → occurs k text → 1 ≤ keyword_score text ks.
Proof.
  intros Hk Hocc. destruct (keyword_score text ks) eqn:E; [|lia].
  exfalso. by apply (proj1 (keyword_score_zero text ks) E k).
Qed.

Lemma classify_at_least table factor text c ks n :
  table ≠ [] → NoDup (odict.keys table) →
  (c, ks) ∈ odict.items table → n ≤ keyword_score text ks →
  ∃ best conf, classify table factor text = Returned (best, conf)
               ∧ n * factor ≤ conf.
Proof.
  intros Hne Hnd [j Hj]%list_elem_of_lookup Hn.
  destruct (classify_spec table factor text Hne Hnd)
    as (i & best & kws & _ & Hrun & Hmax & _).
  exists best, (keyword_score text kws * factor). split; [done|].
  specialize (Hmax _ _ _ Hj). nia.
Qed.

(** X6. A keyword of either table that stands in a description, with
    anything before and after it, still occurs in the cleaned text and is
    counted for its category; so the department confidence is then at
    least 20 and the priority confidence at least 25. *)
Theorem keyword_in_description_is_counted : ∀ c ks k pre post,
  (c, ks) ∈ odict.items KEYWORDS ++ odict.items PRIORITY_KEYWORDS →
  k ∈ ks →
  let text := clean (pre +:+ k +:+ post) in
  occurs k text
  ∧ 1 ≤ keyword_score text ks
  ∧ ((c, ks) ∈ odict.items KEYWORDS →
     ∃ dept conf, predict_department text = Returned (dept, conf) ∧ 20 ≤ conf)
  ∧ ((c, ks) ∈ odict.items PRIORITY_KEYWORDS →
     ∃ prio conf, predict_priority text = Returned (prio, conf) ∧ 25 ≤ conf).
Proof.
  intros c ks k pre post Hin Hk text.
  pose proof tables_keywords_normalized as Hn.
  rewrite Forall_forall in Hn. specialize (Hn _ Hin). cbn in Hn.
  rewrite Forall_forall in Hn. destruct (Hn _ Hk) as [Hnorm Hne].
  assert (occurs k text) as Hocc by by apply occurs_clean.
  assert (1 ≤ keyword_score text ks) as Hs by by eapply keyword_score_pos.
  split; [done|]. split; [done|]. split.
  - intros Hc. destruct KEYWORDS_dict as [H1 H2].
    destruct (classify_at_least KEYWORDS 20 text c ks 1 H1 H2 Hc Hs)
      as (b & conf & ? & ?). by exists b, conf.
  - intros Hc. destruct PRIORITY_KEYWORDS_dict as [H1 H2].
    destruct (classify_at_least PRIORITY_KEYWORDS 25 text c ks 1 H1 H2 Hc Hs)
      as (b & conf & ? & ?). by exists b, conf.
Qed.

(** X10. Every department of [KEYWORDS] and every tier of
    [PRIORITY_KEYWORDS] is the result for some description, with a
    confidence above 0. *)
Theorem every_category_can_win :
  (∀ dept, dept ∈ odict.keys KEYWORDS →
     ∃ text conf, predict_department (clean text) = Returned (dept, conf)
                  ∧ 0 < conf)
  ∧ (∀ prio, prio ∈ odict.keys PRIORITY_KEYWORDS →
       ∃ text conf, predict_priority (clean text) = Returned (prio, conf)
                    ∧ 0 < conf).
Proof.
  split.
  - intros dept Hin. apply list_elem_of_In in Hin. cbn in Hin.
    destruct Hin as [<-|[<-|[<-|[<-|[<-|[<-|[]]]]]]].
    + exists "Water supply!", 40. split; [by vm_compute|lia].
    + exists "Power cut", 40. split; [by vm_compute|lia].
    + exists "Garbage", 20. split; [by vm_compute|lia].
    + exists "Pothole", 20. split; [by vm_compute|lia].
    + exists "Robbery", 20. split; [by vm_compute|lia].
    + exists "Traffic", 20. split; [by vm_compute|lia].
  - intros prio Hin. apply list_elem_of_In in Hin. cbn in Hin.
    destruct Hin as [<-|[<-|[<-|[]]]].
    + exists "Emergency", 25. split; [by vm_compute|lia].
    + exists "Blocked", 25. split; [by vm_compute|lia].
    + exists "Minor", 25. split; [by vm_compute|lia].
Qed.

(** ** The listener on batches and over time *)

Lemma for_each_app {A} (body : A → M unit) l1 l2 w :
  for_each body (l1 ++ l2) w
  = match for_each body l1 w with
    | (Returned _, w1) => for_each body l2 w1
    | (Raised e, w1) => (Raised e, w1)
    end.
Proof.
  revert w. induction l1 as [|x l1 IH]; intros w; [done|].
  cbn [app for_each]. unfold mbind, M_bind.
  destruct (body x w) as [[[]|e] w1]; [apply IH|done].
Qed.

Section FurtherListenerFacts.
Variable clock : nat → Z.
Variable isoformat : datetime → string.


(** X13. The test that the [MODIFIED] branch spells out is
    [check_overdue]: the branch equals the one that calls it. *)
Theorem on_modified_inlines_check_overdue : ∀ doc w,
  on_modified clock doc w = on_modified_by_check_overdue clock doc w.
Proof.
  intros doc w. unfold on_modified, on_modified_by_check_overdue, check_overdue.
  destruct (_ && _); [|done].
  destruct (truthy _) eqn:Ht; cbn [negb]; [|done].
  unfold_monad.
  destruct (value_replace_tzinfo_None _) as [d|e]; [|done].
  reflexivity.
Qed.

(** X11. For every priority string [set_deadline] reads the clock once,
    touches nothing else, and returns a naive time between 24 hours and
    7 days after the reading. *)
Theorem set_deadline_between : ∀ priority w,
  ∃ d, set_deadline clock priority w = (Returned d, tick w)
       ∧ tzinfo d = None
       ∧ (clock (ticks w) + timedelta_hours 24 ≤ wall d
          ≤ clock (ticks w) + timedelta_days 7)%Z.
Proof.
  intros priority w. rewrite set_deadline_run. eexists. split; [done|].
  split; [done|]. cbn [datetime_add naive wall].
  unfold timedelta_hours, timedelta_days.
  destruct (String.eqb priority "High"), (String.eqb priority "Medium"); lia.
Qed.

Lemma on_added_run doc w :
  on_added clock isoformat doc w =
    if ne_str (dict_get (fields doc) "status") "new" then (Returned (), w)
    else match dict_get_default (fields doc) "description" (VStr "") with
         | VStr raw =>
             match predict_department (clean raw),
                   predict_priority (clean raw) with
             | Returned (dept, dc), Returned (prio, pc) =>
                 match dict_get_default (fields doc) "actions" (VList []) with
                 | VList acts =>
                     (Returned (),
                      classified_world clock isoformat doc w dept dc prio pc
                        acts)
                 | _ => (Raised AttributeError, tick (tick w))
                 end
             | Raised e, _ => (Raised e, w)
             | _, Raised e => (Raised e, w)
             end
         | _ => (Raised AttributeError, w)
         end.
Proof.
  unfold on_added, to_dict.
  destruct (ne_str _ "new"); [done|].
  unfold mbind at 1. unfold M_bind at 1. unfold lift at 1.
  destruct (dict_get_default _ "description" _); try done.
  cbn [str_method_receiver].
  unfold mbind at 1. unfold M_bind at 1. unfold lift at 1.
  destruct (predict_department _) as [[dept dc]|e]; [|done].
  unfold mbind at 1. unfold M_bind at 1. unfold lift at 1.
  destruct (predict_priority _) as [[prio pc]|e]; [|done].
  unfold mbind at 1. unfold M_bind at 1. rewrite set_deadline_run.
  unfold_monad.
  destruct (dict_get_default _ "actions" _); try done.
Qed.

Lemma status_new data :
  data !! "status" = Some (VStr "new") →
  ne_str (dict_get data "status") "new" = false.
Proof. intros H. by rewrite (dict_get_Some _ _ _ H). Qed.

(** X14. An [ADDED] event for a record with status ["new"], a text as
    description (or none) and a list as actions (or none) reads the clock
    three times, issues one update with the predicted department and
    priority, the deadline of that priority, the actions followed by one
    entry and [lastUpdated], and prints one line. *)
Theorem new_record_classified : ∀ doc w raw acts,
  fields doc !! "status" = Some (VStr "new") →
  dict_get_default (fields doc) "description" (VStr "") = VStr raw →
  dict_get_default (fields doc) "actions" (VList []) = VList acts →
  ∃ dept dc prio pc,
    predict_department (clean raw) = Returned (dept, dc)
    ∧ predict_priority (clean raw) = Returned (prio, pc)
    ∧ on_snapshot clock isoformat [added doc] w
      = (Returned (),
         classified_world clock isoformat doc w dept dc prio pc acts).
Proof.
  intros doc w raw acts Hst Hdesc Hacts.
  destruct (predict_department_total (clean raw)) as (dept & dc & Hd).
  destruct (predict_priority_total (clean raw)) as (prio & pc & Hp).
  exists dept, dc, prio, pc. split; [done|]. split; [done|].
  rewrite on_snapshot_added, on_added_run.
  by rewrite (status_new _ Hst), Hdesc, Hd, Hp, Hacts.
Qed.


(** X16. The events of a batch are handled one after the other: a batch
    in two parts is the first part followed by the second from the world
    the first one left, and an exception in the first part ends the
    batch, so the second part is not handled. *)
Theorem on_snapshot_app : ∀ changes1 changes2 w,
  on_snapshot clock isoformat (changes1 ++ changes2) w
  = match on_snapshot clock isoformat changes1 w with
    | (Returned _, w1) => on_snapshot clock isoformat changes2 w1
    | (Raised e, w1) => (Raised e, w1)
    end.
Proof. intros cs1 cs2 w. apply for_each_app. Qed.

(** X17. [REMOVED] events do nothing: a batch without them does what the
    batch does. *)
Theorem removed_events_are_skipped : ∀ changes w,
  on_snapshot clock isoformat (List.filter not_removed changes) w
  = on_snapshot clock isoformat changes w.
Proof.
  unfold on_snapshot. intros cs.
  induction cs as [|[ty doc] cs IH]; intros w; [done|].
  destruct ty; cbn [List.filter not_removed type for_each document].
  - unfold mbind, M_bind.
    destruct (on_added _ _ _ _) as [[[]|e] w1]; [apply IH|done].
  - rewrite IH. done.
  - unfold mbind, M_bind.
    destruct (on_modified _ _ _) as [[[]|e] w1]; [apply IH|done].
Qed.

Lemma change_step c w :
  ∃ r w' us ls,
    (match type c with
     | ADDED => on_added clock isoformat (document c)
     | MODIFIED => on_modified clock (document c)
     | REMOVED => mret ()
     end) w = (r, w')
    ∧ updates w' = updates w ++ us
    ∧ printed w' = printed w ++ ls
    ∧ length ls = length us
    ∧ length us ≤ (if not_removed c then 1 else 0)
    ∧ ticks w ≤ ticks w' ≤ ticks w + 3
    ∧ Forall (caused_by c) us.
Proof.
  destruct c as [ty doc]. unfold not_removed, caused_by. cbn [type document].
  assert (∀ r w', ticks w ≤ ticks w' ≤ ticks w + 3 →
            updates w' = updates w → printed w' = printed w →
            ∃ (r0 : outcome ()) w0 us ls,
              (r, w') = (r0, w0) ∧ updates w0 = updates w ++ us
              ∧ printed w0 = printed w ++ ls ∧ length ls = length us
              ∧ length us ≤ (if match ty with REMOVED => false | _ => true end
                             then 1 else 0)
              ∧ ticks w ≤ ticks w0 ≤ ticks w + 3
              ∧ Forall (λ ip : string * gmap string value,
                   ip.1 = id doc
                   ∧ ((ty = ADDED ∧ is_classification ip.2)
                      ∨ (ty = MODIFIED ∧ is_overdue_flag ip.2))) us) as Hnone.
  { intros r w' Ht Hu Hp. exists r, w', [], [].
    rewrite !app_nil_r. rewrite Hu, Hp.
    split_and!; first [done | lia | (destruct ty; cbn; lia) | apply Forall_nil]. }
  destruct ty.
  - rewrite on_added_run.
    repeat case_match;
      try (apply Hnone; first [done | lia | (cbn; lia)]).
    eexists _, _, [_], [_]. split; [done|]. unfold classified_world.
    cbn [ticks updates printed].
    split_and!; first [done | lia | apply Forall_singleton].
    split; [done|]. left. split; [done|]. by do 7 eexists.
  - apply Hnone; (done || lia).
  - rewrite on_modified_run. destruct (_ && _); [|apply Hnone; (done || lia)].
    destruct (dict_get _ "deadline") as [| | | |d| |];
      try (apply Hnone; (done || lia)).
    destruct (wall d <? _)%Z; [|apply Hnone; (done || cbn; lia)].
    eexists _, _, [_], [_]. split; [done|]. cbn [ticks updates printed].
    split_and!; first [done | lia | apply Forall_singleton].
    split; [done|]. by right.
Qed.

(** X18. A batch only adds to what was issued and printed before. It
    prints one line for each update, issues at most one update for each
    event that is not [REMOVED], reads the clock at most three times for
    each event, and every update is for the record of an event of the
    batch: a classification for an [ADDED] one, the overdue flag for a
    [MODIFIED] one. *)
Theorem batch_updates_are_accounted_for : ∀ changes w,
  ∃ r w' us ls,
    on_snapshot clock isoformat changes w = (r, w')
    ∧ updates w' = updates w ++ us
    ∧ printed w' = printed w ++ ls
    ∧ length ls = length us
    ∧ length us ≤ length (List.filter not_removed changes)
    ∧ ticks w ≤ ticks w' ≤ ticks w + 3 * length changes
    ∧ Forall (λ ip, ∃ c, c ∈ changes ∧ caused_by c ip) us.
Proof.
  unfold on_snapshot. intros cs.
  induction cs as [|c cs IH]; intros w.
  - exists (Returned ()), w, [], []. rewrite !app_nil_r.
    split_and!; first [done | (cbn; lia) | apply Forall_nil].
  - cbn [for_each List.filter length]. unfold mbind, M_bind.
    destruct (change_step c w)
      as (r & w1 & us & ls & -> & Hu & Hp & Hl & Hn & Ht & Hc).
    assert (Forall (λ ip, ∃ c0, c0 ∈ c :: cs ∧ caused_by c0 ip) us) as Hc'.
    { eapply Forall_impl; [exact Hc|]. intros ip ?. exists c. split; [left|done]. }
    destruct r as [[]|e].
    + destruct (IH w1) as (r & w2 & us2 & ls2 & -> & Hu2 & Hp2 & Hl2 & Hn2 & Ht2 & Hc2).
      exists r, w2, (us ++ us2), (ls ++ ls2).
      rewrite Hu2, Hu, Hp2, Hp, !app_assoc, !length_app.
      split_and!; first [done | lia | idtac].
      * destruct (not_removed c); cbn [length] in *; lia.
      * apply Forall_app. split; [done|].
        eapply Forall_impl; [exact Hc2|].
        intros ip (c0 & ? & ?). exists c0. split; [by right|done].
    + exists (Raised e), w1, us, ls.
      split_and!; first [done | lia | idtac].
      destruct (not_removed c); cbn [length] in *; lia.
Qed.

Lemma issued_modified doc w :
  issued (on_snapshot clock isoformat [modified doc]) w
  = issued (on_modified clock doc) w.
Proof. unfold issued. by rewrite on_snapshot_modified. Qed.

(** X19. When the update of a classification has been merged into the
    record, a [MODIFIED] event flags the record as overdue exactly when
    the clock then reads more than the deadline, which is at least 24
    hours after the classification; until then it issues nothing. *)
Theorem classified_record_overdue_after_deadline : ∀ doc w raw acts w2,
  fields doc !! "status" = Some (VStr "new") →
  dict_get_default (fields doc) "description" (VStr "") = VStr raw →
  dict_get_default (fields doc) "actions" (VList []) = VList acts →
  ∃ payload deadline,
    issued (on_snapshot clock isoformat [added doc]) w = [(id doc, payload)]
    ∧ payload !! "deadline" = Some (VTime (naive deadline))
    ∧ (clock (ticks w) + timedelta_hours 24 ≤ deadline)%Z
    ∧ let doc' := {| id := id doc;
                     fields := apply_update payload (fields doc) |} in
      (issued (on_snapshot clock isoformat [modified doc']) w2
       = [(id doc, {[ "overdue" := VBool true ]})]
       ↔ (deadline < clock (ticks w2))%Z)
      ∧ (issued (on_snapshot clock isoformat [modified doc']) w2 = []
         ↔ (clock (ticks w2) ≤ deadline)%Z).
Proof.
  intros doc w raw acts w2 Hst Hdesc Hacts.
  destruct (predict_department_total (clean raw)) as (dept & dc & Hd).
  destruct (predict_priority_total (clean raw)) as (prio & pc & Hp).
  pose proof (on_added_run doc w) as Hrun.
  rewrite (status_new _ Hst), Hdesc, Hd, Hp, Hacts in Hrun.
  eexists _, (clock (ticks w) + window prio)%Z. split.
  { eapply issued_run; [by rewrite on_snapshot_added|reflexivity]. }
  split; [reflexivity|]. split.
  { unfold window, timedelta_hours, timedelta_days.
    destruct (String.eqb prio "High"), (String.eqb prio "Medium"); lia. }
  cbn zeta. rewrite issued_modified, on_modified_issued. cbn [fields id].
  unfold apply_update.
  rewrite (dict_get_Some _ "status" (VStr "classified"))
    by (by erewrite lookup_union_Some_l by reflexivity).
  rewrite (dict_get_Some _ "deadline"
             (VTime (naive (clock (ticks w) + window prio))))
    by (by erewrite lookup_union_Some_l by reflexivity).
  change (ne_str (VStr "classified") "resolved") with true.
  change (ne_str (VStr "classified") "under_action") with true.
  cbn [andb wall naive].
  destruct (Z.ltb_spec (clock (ticks w) + window prio) (clock (ticks w2)));
    split; split; first [done | lia].
Qed.

(** X20. The [MODIFIED] branch does not look at the [overdue] field: when
    the flag has been merged into the record and the clock has not gone
    back, the next [MODIFIED] event issues the same update again. *)
Theorem overdue_update_is_issued_again : ∀ doc w w2,
  issued (on_snapshot clock isoformat [modified doc]) w
  = [(id doc, {[ "overdue" := VBool true ]})] →
  (clock (ticks w) ≤ clock (ticks w2))%Z →
  let doc' := {| id := id doc;
                 fields := apply_update {[ "overdue" := VBool true ]}
                             (fields doc) |} in
  issued (on_snapshot clock isoformat [modified doc']) w2
  = [(id doc, {[ "overdue" := VBool true ]})].
Proof.
  intros doc w w2. cbn zeta. rewrite !issued_modified, !on_modified_issued.
  cbn [fields id]. unfold apply_update, dict_get.
  rewrite !lookup_union_r by done.
  destruct (ne_str _ "resolved"), (ne_str _ "under_action"); cbn [andb];
    try done.
  destruct (default VNone (fields doc !! "deadline")); try done.
  destruct (Z.ltb_spec (wall t) (clock (ticks w))); [|done].
  intros _ Hle. destruct (Z.ltb_spec (wall t) (clock (ticks w2))); [done|lia].
Qed.
(** X21. The guard of the [ADDED] branch reads the status in the
    snapshot of the event: a batch that holds the same snapshot of a new
    record twice issues two classification updates for it. *)
Theorem same_snapshot_twice_is_classified_twice : ∀ doc w raw acts,
  fields doc !! "status" = Some (VStr "new") →
  dict_get_default (fields doc) "description" (VStr "") = VStr raw →
  dict_get_default (fields doc) "actions" (VList []) = VList acts →
  ∃ p1 p2,
    issued (on_snapshot clock isoformat [added doc; added doc]) w
    = [(id doc, p1); (id doc, p2)]
    ∧ is_classification p1 ∧ is_classification p2
    ∧ p1 !! "department" = p2 !! "department"
    ∧ p1 !! "priority" = p2 !! "priority".
Proof.
  intros doc w raw acts Hst Hdesc Hacts.
  destruct (predict_department_total (clean raw)) as (dept & dc & Hd).
  destruct (predict_priority_total (clean raw)) as (prio & pc & Hp).
  assert (∀ w0, on_snapshot clock isoformat [added doc] w0
                = (Returned (),
                   classified_world clock isoformat doc w0 dept dc prio pc acts))
    as Hrun.
  { intros w0. rewrite on_snapshot_added, on_added_run.
    by rewrite (status_new _ Hst), Hdesc, Hd, Hp, Hacts. }
  eexists _, _. split.
  - eapply issued_run.
    + unfold on_snapshot in *.
      rewrite (for_each_app _ [added doc] [added doc]), Hrun. apply Hrun.
    + unfold classified_world. cbn [updates]. rewrite <- app_assoc. reflexivity.
  - split_and!; [by do 7 eexists|by do 7 eexists|done|done].
Qed.

End FurtherListenerFacts.

(** * The further properties on sample inputs *)


Lemma clean_of_two_parts_witness :
  Str.is_az (Str.lower_char ","%char) = false
  ∧ clean ("Water" +:+ String ","%char "LEAK")
    = join_texts (clean "Water") (clean "LEAK").
Proof.
  split; [reflexivity|].
  apply (clean_of_two_parts "Water" ","%char "LEAK"). reflexivity.
Defined.

Lemma keyword_score_range_witness :
  keyword_score "water leak" ["water"; "leak"] = length ["water"; "leak"]
  ∧ ∀ k, k ∈ ["water"; "leak"] → occurs k "water leak".
Proof.
  split; [reflexivity|].
  apply (proj1 (proj2 (proj2
           (keyword_score_range "water leak" ["water"; "leak"])))).
  reflexivity.
Defined.

Lemma keyword_in_description_is_counted_witness :
  ("Low", ["dirty"; "dust"; "small"; "minor"; "slow"; "dim"; "maintenance"])
    ∈ odict.items KEYWORDS ++ odict.items PRIORITY_KEYWORDS
  ∧ "dirty" ∈ ["dirty"; "dust"; "small"; "minor"; "slow"; "dim"; "maintenance"]
  ∧ occurs "dirty" (clean ("The park is " +:+ "dirty" +:+ "!!"))
  ∧ 1 ≤ keyword_score (clean ("The park is " +:+ "dirty" +:+ "!!"))
          ["dirty"; "dust"; "small"; "minor"; "slow"; "dim"; "maintenance"].
Proof.
  assert (("Low", ["dirty"; "dust"; "small"; "minor"; "slow"; "dim";
                   "maintenance"])
          ∈ odict.items KEYWORDS ++ odict.items PRIORITY_KEYWORDS) as Hin.
  { apply elem_of_app. right. do 2 apply list_elem_of_further.
    apply list_elem_of_here. }
  assert ("dirty" ∈ ["dirty"; "dust"; "small"; "minor"; "slow"; "dim";
                     "maintenance"]) as Hk by apply list_elem_of_here.
  split; [exact Hin|]. split; [exact Hk|].
  destruct (keyword_in_description_is_counted "Low" _ "dirty"
              "The park is " "!!" Hin Hk) as (H1 & H2 & _).
  split; [exact H1|exact H2].
Defined.

Lemma no_keyword_means_first_category_witness :
  predict_department "hello" = Returned ("Water", 0)
  ∧ ∀ c ks k, (c, ks) ∈ odict.items KEYWORDS → k ∈ ks → ¬ occurs k "hello".
Proof.
  split; [reflexivity|].
  apply (proj1 (proj1 (proj2 (no_keyword_means_first_category "hello")))).
  reflexivity.
Defined.

Lemma every_category_can_win_witness :
  "Police" ∈ odict.keys KEYWORDS
  ∧ ∃ text conf, predict_department (clean text) = Returned ("Police", conf)
                 ∧ 0 < conf.
Proof.
  assert ("Police" ∈ odict.keys KEYWORDS) as Hin.
  { do 4 apply list_elem_of_further. apply list_elem_of_here. }
  split; [exact Hin|]. exact (proj1 every_category_can_win "Police" Hin).
Defined.


Lemma new_record_classified_witness :
  fields manhole_doc !! "status" = Some (VStr "new")
  ∧ dict_get_default (fields manhole_doc) "description" (VStr "")
    = VStr "open manhole near the bus stop, very dangerous"
  ∧ dict_get_default (fields manhole_doc) "actions" (VList []) = VList []
  ∧ ∃ dept dc prio pc,
      predict_department
        (clean "open manhole near the bus stop, very dangerous")
      = Returned (dept, dc)
      ∧ predict_priority
          (clean "open manhole near the bus stop, very dangerous")
        = Returned (prio, pc)
      ∧ on_snapshot sample_clock sample_isoformat [added manhole_doc] fresh_world
        = (Returned (),
           classified_world sample_clock sample_isoformat manhole_doc
             fresh_world dept dc prio pc []).
Proof.
  split; [|split; [|split]].
  4: apply (new_record_classified sample_clock sample_isoformat manhole_doc
              fresh_world).
  all: vm_compute; reflexivity.
Defined.


Lemma classified_record_overdue_after_deadline_witness :
  fields manhole_doc !! "status" = Some (VStr "new")
  ∧ dict_get_default (fields manhole_doc) "description" (VStr "")
    = VStr "open manhole near the bus stop, very dangerous"
  ∧ dict_get_default (fields manhole_doc) "actions" (VList []) = VList []
  ∧ ∃ payload deadline,
      issued (on_snapshot sample_clock sample_isoformat [added manhole_doc])
        fresh_world
      = [(id manhole_doc, payload)]
      ∧ payload !! "deadline" = Some (VTime (naive deadline))
      ∧ (sample_clock (ticks fresh_world) + timedelta_hours 24 ≤ deadline)%Z
      ∧ let doc' := {| id := id manhole_doc;
                       fields := apply_update payload (fields manhole_doc) |} in
        (issued (on_snapshot sample_clock sample_isoformat [modified doc'])
           (mk_world 3 [] [])
         = [(id manhole_doc, {[ "overdue" := VBool true ]})]
         ↔ (deadline < sample_clock (ticks (mk_world 3 [] [])))%Z)
        ∧ (issued (on_snapshot sample_clock sample_isoformat [modified doc'])
             (mk_world 3 [] [])
           = []
           ↔ (sample_clock (ticks (mk_world 3 [] [])) ≤ deadline)%Z).
Proof.
  split; [|split; [|split]].
  4: apply (classified_record_overdue_after_deadline sample_clock
              sample_isoformat manhole_doc fresh_world
              "open manhole near the bus stop, very dangerous" []
              (mk_world 3 [] [])).
  all: vm_compute; reflexivity.
Defined.

Lemma overdue_update_is_issued_again_witness :
  issued (on_snapshot sample_clock sample_isoformat [modified classified_doc])
    fresh_world
  = [(id classified_doc, {[ "overdue" := VBool true ]})]
  ∧ (sample_clock (ticks fresh_world)
     ≤ sample_clock (ticks (mk_world 1 [] [])))%Z
  ∧ issued (on_snapshot sample_clock sample_isoformat
              [modified {| id := id classified_doc;
                           fields := apply_update {[ "overdue" := VBool true ]}
                                       (fields classified_doc) |}])
      (mk_world 1 [] [])
    = [(id classified_doc, {[ "overdue" := VBool true ]})].
Proof.
  split; [|split].
  3: apply (overdue_update_is_issued_again sample_clock sample_isoformat
              classified_doc fresh_world (mk_world 1 [] [])).
  all: vm_compute; first [reflexivity | discriminate].
Defined.

Lemma same_snapshot_twice_is_classified_twice_witness :
  fields manhole_doc !! "status" = Some (VStr "new")
  ∧ dict_get_default (fields manhole_doc) "description" (VStr "")
    = VStr "open manhole near the bus stop, very dangerous"
  ∧ dict_get_default (fields manhole_doc) "actions" (VList []) = VList []
  ∧ ∃ p1 p2,
      issued (on_snapshot sample_clock sample_isoformat
                [added manhole_doc; added manhole_doc]) fresh_world
      = [(id manhole_doc, p1); (id manhole_doc, p2)]
      ∧ is_classification p1 ∧ is_classification p2
      ∧ p1 !! "department" = p2 !! "department"
      ∧ p1 !! "priority" = p2 !! "priority".
Proof.
  split; [|split; [|split]].
  4: apply (same_snapshot_twice_is_classified_twice sample_clock
              sample_isoformat manhole_doc fresh_world
              "open manhole near the bus stop, very dangerous" []).
  all: vm_compute; reflexivity.
Defined.
